(** * The rule engine of [snake.py], embedded in Rocq

    The development follows the Python module class by class:
    [MoveResult], [Direction], [Coordinate] and [SnakeGame].  Python
    integers are unbounded, hence [Z].  A call either returns a value or
    raises, hence the [outcome] type; the methods of [SnakeGame] mutate
    the object they are called on, hence a state-and-exception monad
    over the record of its attributes.  The sets of [Coordinate]s are
    [gset]s and the dictionary of opposite directions is a [gmap]. *)

From Stdlib Require Import ZArith Lia.
From stdpp Require Import base option list strings gmap sets.

Local Open Scope Z_scope.

(** ** Exceptions and results of a call *)

Inductive exn : Set :=
| IndexError
| KeyError
| ZeroDivisionError
| NotImplementedError
| Exception.

Inductive outcome (A : Type) : Type :=
| Returned (a : A)
| Raised (e : exn).

Arguments Returned {A} a.
Arguments Raised {A} e.

(** Sequencing of calls: [let* x := m in k] runs [m], then [k] on what
    [m] returned; an exception raised by [m] ends the computation. *)

Definition bind {A B} (m : outcome A) (k : A → outcome B) : outcome B :=
  match m with
  | Returned a => k a
  | Raised e => Raised e
  end.

Notation "'let*' x ':=' m 'in' k" := (bind m (λ x, k))
  (at level 10, x name, m at level 100, k at level 200).

(** ** The Python values a [Coordinate] may be compared with

    [C] is the type of the instances of the class at hand. *)

Inductive object (C : Type) : Type :=
| PyNone
| PyInstance (c : C)
| PyInt (n : Z)
| PyBool (b : bool)
| PyTuple (items : list Z).

Arguments PyNone {C}.
Arguments PyInstance {C} c.
Arguments PyInt {C} n.
Arguments PyBool {C} b.
Arguments PyTuple {C} items.

(** [value is None] *)
Definition is_None {C} (value : object C) : bool :=
  match value with
  | PyNone => true
  | _ => false
  end.

(** [isinstance(value, C)], with the instance when it is one *)
Definition isinstance {C} (value : object C) : option C :=
  match value with
  | PyInstance c => Some c
  | _ => None
  end.

(** An attribute of type [Optional[C]] read as a Python value. *)
Definition of_optional {C} (o : option C) : object C :=
  match o with
  | Some c => PyInstance c
  | None => PyNone
  end.

(** [a % b] on integers: the result has the sign of [b], which is what
    [Z.modulo] computes; a zero divisor raises. *)
Definition py_mod (a b : Z) : outcome Z :=
  if decide (b = 0) then Raised ZeroDivisionError else Returned (a mod b).

(** [seq[i]]: a negative index counts from the end, an index out of
    range raises. *)
Definition getitem {A} (seq : list A) (i : Z) : outcome A :=
  let j := if bool_decide (i < 0) then i + Z.of_nat (length seq) else i in
  if bool_decide (j < 0) then Raised IndexError
  else match seq !! Z.to_nat j with
       | Some a => Returned a
       | None => Raised IndexError
       end.

Arguments getitem : simpl never.

(** [range(n)]: empty when [n <= 0]. *)
Definition range (n : Z) : list Z := seqZ 0 n.

(** [random.choice(seq)], where [rnd] is the number the generator
    draws: [seq[rnd % len(seq)]]; an empty sequence raises. *)
Definition random_choice {A} (rnd : nat) (seq : list A) : outcome A :=
  match seq !! (rnd mod length seq)%nat with
  | Some a => Returned a
  | None => Raised IndexError
  end.

(** ** [class MoveResult(Enum)] *)

Module MoveResult.

Inductive t : Set := OK | OVERFLOW | COLISION.

#[global] Instance result_eq_dec : EqDecision t.
Proof. solve_decision. Defined.

(** [self in (MoveResult.COLISION, MoveResult.COLISION)] *)
Definition is_lost (self : t) : bool :=
  bool_decide (self ∈ [COLISION; COLISION]).

End MoveResult.

(** ** [class Direction(Enum)] and [OPPOSITE_DIRECTIONS_MAP] *)

Module Direction.

Inductive t : Set := LEFT | RIGHT | UP | DOWN.

#[global] Instance direction_eq_dec : EqDecision t.
Proof. solve_decision. Defined.

Definition to_nat (d : t) : nat :=
  match d with LEFT => 0 | RIGHT => 1 | UP => 2 | DOWN => 3 end.

Definition of_nat (n : nat) : t :=
  match n with O => LEFT | 1%nat => RIGHT | 2%nat => UP | _ => DOWN end.

#[global] Instance direction_countable : Countable t.
Proof. apply (inj_countable' to_nat of_nat). by intros []. Defined.

Definition OPPOSITE_DIRECTIONS_MAP : gmap t t :=
  list_to_map [(LEFT, RIGHT); (RIGHT, LEFT); (UP, DOWN); (DOWN, UP)].

(** [OPPOSITE_DIRECTIONS_MAP[self]]: a missing key raises. *)
Definition get_opposite (self : t) : outcome t :=
  match OPPOSITE_DIRECTIONS_MAP !! self with
  | Some d => Returned d
  | None => Raised KeyError
  end.

(** [self.get_opposite() == direction] *)
Definition is_opposed (self direction : t) : outcome bool :=
  let* d := get_opposite self in
  Returned (bool_decide (d = direction)).

End Direction.

(** ** [class Coordinate] *)

Module Coordinate.

Record t : Set := mk { x : Z; y : Z }.

#[global] Instance coordinate_eq_dec : EqDecision t.
Proof. solve_decision. Defined.

Definition totuple (self : t) : Z * Z := (x self, y self).

Definition of_tuple (p : Z * Z) : t := mk p.1 p.2.

(** The class defines [__hash__] on [totuple], so that coordinates are
    the members of sets. *)
#[global] Instance coordinate_countable : Countable t.
Proof. apply (inj_countable' totuple of_tuple). by intros []. Defined.

Definition __eq__ (self : t) (value : object t) : outcome bool :=
  if is_None value then Returned false
  else match isinstance value with
       | None => Raised NotImplementedError
       | Some other => Returned (bool_decide (totuple self = totuple other))
       end.

(** [!=] is [object.__ne__]: the negation of what [__eq__] returns. *)
Definition __ne__ (self : t) (value : object t) : outcome bool :=
  let* b := __eq__ self value in
  Returned (negb b).

(** [value in seq] on a list of coordinates: the first element equal to
    [value] ends the search. *)
Fixpoint __contains__ (seq : list t) (value : t) : outcome bool :=
  match seq with
  | [] => Returned false
  | item :: seq' =>
      let* b := __eq__ item (PyInstance value) in
      if b then Returned true else __contains__ seq' value
  end.

Definition left (self : t) : t := mk (x self - 1) (y self).

Definition right (self : t) : t := mk (x self + 1) (y self).

Definition up (self : t) : t := mk (x self) (y self - 1).

Definition down (self : t) : t := mk (x self) (y self + 1).

Definition overflows (self : t) (width height : Z) : outcome t :=
  let* x' := py_mod (x self) width in
  let* y' := py_mod (y self) height in
  Returned (mk x' y').

Definition is_outside (self : t) (width height : Z) : bool :=
  if bool_decide (x self < 0) || bool_decide (x self >= width) then true
  else if bool_decide (y self < 0) || bool_decide (y self >= height) then true
  else false.

End Coordinate.

(** ** [class SnakeGame] *)

Module SnakeGame.

Record t : Type := mk {
  _width : Z;
  _height : Z;
  _start_len : Z;
  _overflows_allowed : bool;
  _direction : Direction.t;
  _snake : list Coordinate.t;
  _all_coordinates : gset Coordinate.t;
  _apple : option Coordinate.t
}.

(** A method takes the object as it is before the call to what the call
    returns or raises and the object as it is after the call. *)
Definition method (A : Type) : Type := t → outcome A * t.

Definition pure {A} (a : A) : method A := λ self, (Returned a, self).

Definition lift {A} (m : outcome A) : method A := λ self, (m, self).

Definition attr {A} (f : t → A) : method A := λ self, (Returned (f self), self).

Definition mbind {A B} (m : method A) (k : A → method B) : method B :=
  λ self,
    match m self with
    | (Returned a, self') => k a self'
    | (Raised e, self') => (Raised e, self')
    end.

Notation "'do' x ← m ; k" := (mbind m (λ x, k))
  (at level 10, x name, m at level 100, k at level 200).

Notation "m ;; k" := (mbind m (λ _, k))
  (at level 100, k at level 200, right associativity).

(** Assignments to the attributes that the methods write. *)

Definition set__direction (d : Direction.t) : method unit := λ self,
  (Returned (), mk (_width self) (_height self) (_start_len self)
     (_overflows_allowed self) d (_snake self) (_all_coordinates self)
     (_apple self)).

Definition set__snake (l : list Coordinate.t) : method unit := λ self,
  (Returned (), mk (_width self) (_height self) (_start_len self)
     (_overflows_allowed self) (_direction self) l (_all_coordinates self)
     (_apple self)).

Definition set__apple (a : option Coordinate.t) : method unit := λ self,
  (Returned (), mk (_width self) (_height self) (_start_len self)
     (_overflows_allowed self) (_direction self) (_snake self)
     (_all_coordinates self) a).

(** [self._snake.append(c)] *)
Definition append (c : Coordinate.t) : method unit :=
  do snake ← attr _snake;
  set__snake (snake ++ [c]).

(** [self._snake.pop(0)] *)
Definition pop0 : method Coordinate.t :=
  do snake ← attr _snake;
  match snake with
  | [] => lift (Raised IndexError)
  | c :: snake' => set__snake snake' ;; pure c
  end.

Definition _get_free_coordinates : method (gset Coordinate.t) :=
  do all ← attr _all_coordinates;
  do snake ← attr _snake;
  pure (all ∖ list_to_set snake).

Definition _get_random_free_coordinate (rnd : nat)
  : method (option Coordinate.t) :=
  do free ← _get_free_coordinates;
  let free_coords := elements free in
  if bool_decide (free_coords = []) then pure None
  else do c ← lift (random_choice rnd free_coords); pure (Some c).

Definition _new_apple (rnd : nat) : method unit :=
  do a ← _get_random_free_coordinate rnd;
  set__apple a.

Arguments _new_apple : simpl never.

(** [rnd] is the draw of the generator during the call. *)
Definition __init__ (width height start_len : Z) (overflows_allowed : bool)
    (rnd : nat) : outcome t :=
  let self :=
    mk width height start_len overflows_allowed Direction.RIGHT
      ((λ i, Coordinate.mk i 0) <$> range start_len)
      (list_to_set
         (flat_map (λ x, (λ y, Coordinate.mk x y) <$> range height)
            (range width)))
      None in
  match _new_apple rnd self with
  | (Returned _, self') => Returned self'
  | (Raised e, _) => Raised e
  end.

Definition head : method Coordinate.t :=
  do snake ← attr _snake;
  lift (getitem snake (-1)).

Definition tail : method Coordinate.t :=
  do snake ← attr _snake;
  lift (getitem snake 0).

Definition width : method Z := attr _width.

Definition height : method Z := attr _height.

Definition get_snake : method (list Coordinate.t) := attr _snake.

Definition get_apple : method (option Coordinate.t) := attr _apple.

Definition score : method Z :=
  do snake ← attr _snake;
  do start_len ← attr _start_len;
  pure (Z.of_nat (length snake) - start_len).

Definition _next_coord : method Coordinate.t :=
  do d ← attr _direction;
  if bool_decide (d = Direction.LEFT) then
    do h ← head; pure (Coordinate.left h)
  else if bool_decide (d = Direction.RIGHT) then
    do h ← head; pure (Coordinate.right h)
  else if bool_decide (d = Direction.UP) then
    do h ← head; pure (Coordinate.up h)
  else if bool_decide (d = Direction.DOWN) then
    do h ← head; pure (Coordinate.down h)
  else lift (Raised Exception).

Definition set_direction (direction : Direction.t) : method unit :=
  do d ← attr _direction;
  do opposed ← lift (Direction.is_opposed d direction);
  if opposed then pure ()
  else set__direction direction.

(** [move] from its comment [# Check colisions] on, for the coordinate
    that the bounds check lets through. *)
Definition move_checked (rnd : nat) (coordinate : Coordinate.t)
  : method MoveResult.t :=
  do t ← tail;
  do differs ← lift (Coordinate.__ne__ coordinate (PyInstance t));
  do hit ← (if differs then
              do snake ← attr _snake;
              lift (Coordinate.__contains__ snake coordinate)
            else pure false);
  if hit then pure MoveResult.COLISION
  else
    append coordinate ;;
    do apple ← attr _apple;
    do eaten ← lift (Coordinate.__eq__ coordinate (of_optional apple));
    (if eaten then _new_apple rnd else pop0 ;; pure ()) ;;
    pure MoveResult.OK.

Definition move (rnd : nat) : method MoveResult.t :=
  do coordinate ← _next_coord;
  do width ← attr _width;
  do height ← attr _height;
  if Coordinate.is_outside coordinate width height then
    do allowed ← attr _overflows_allowed;
    if negb allowed then pure MoveResult.OVERFLOW
    else
      do coordinate ← lift (Coordinate.overflows coordinate width height);
      move_checked rnd coordinate
  else move_checked rnd coordinate.

(** The coordinate that [move] takes to its collision check: the next
    coordinate, wrapped when it is outside and overflowing is allowed. *)
Definition candidate : method Coordinate.t :=
  do coordinate ← _next_coord;
  do width ← attr _width;
  do height ← attr _height;
  do allowed ← attr _overflows_allowed;
  if Coordinate.is_outside coordinate width height && allowed then
    lift (Coordinate.overflows coordinate width height)
  else pure coordinate.

(** The calls of a client after the construction, and the object after
    a sequence of them; an exception leaves the object as the raising
    call left it. *)
Inductive call : Set :=
| call_set_direction (direction : Direction.t)
| call_move (rnd : nat).

Definition perform (self : t) (c : call) : t :=
  match c with
  | call_set_direction direction => (set_direction direction self).2
  | call_move rnd => (move rnd self).2
  end.

Definition run (calls : list call) (self : t) : t :=
  foldl perform self calls.

End SnakeGame.

(** ** [class SnakeCanvas]

    The canvas computes integers and hands them to pygame, which is
    outside the repository: whether pygame carries out a call or raises
    in it is a parameter of the drawing methods, and the screen is the
    sequence of the [pygame.draw.rect] calls that pygame carried out,
    the oldest first.  The canvas keeps a reference to the game, which
    changes between two drawings: the methods that read the game take
    it as it is at the time of the call. *)

Module SnakeCanvas.

(** What ends a drawing early: the attribute read on [None] in the code
    of the canvas, or an exception raised inside a call of pygame. *)
Inductive error : Set := AttributeError | PygameError.

(** The integers handed to [pygame.Rect((left, top), (width, height))]:
    Python integers, as they are before pygame converts them. *)
Record rect_args : Set := mk_rect {
  rect_left : Z;
  rect_top : Z;
  rect_width : Z;
  rect_height : Z
}.

(** A call [pygame.draw.rect(screen, color, pygame.Rect(...), width)]
    with its arguments; the default of [width] is 0. *)
Record rect_call : Set := mk_call {
  call_color : string;
  call_rect : rect_args;
  call_thickness : Z
}.

(** pygame's answer to a call: [true] when it carries the call out,
    [false] when it raises. *)
Definition pygame : Type := rect_call → bool.

Record t : Set := mk {
  _unit : Z;
  _position : Z * Z;
  _border : Z;
  _margin : Z
}.

(** A drawing method: from the screen before the call to what the call
    returns or raises and the screen after it. *)
Definition drawing : Type := list rect_call → (error + unit) * list rect_call.

(** One call of [pygame.draw.rect]. *)
Definition draw_rect (lib : pygame) (call : rect_call) : drawing := λ screen,
  if lib call then (inr (), screen ++ [call]) else (inl PygameError, screen).

Definition __init__ (unit : Z) (position : Z * Z) : t := mk unit position 1 10.

Definition x (self : t) : Z := (_position self).1.

Definition y (self : t) : Z := (_position self).2.

Definition _iwidth (self : t) (game : SnakeGame.t) : Z :=
  SnakeGame._width game * _unit self.

Definition _iheight (self : t) (game : SnakeGame.t) : Z :=
  SnakeGame._height game * _unit self.

Definition width (self : t) (game : SnakeGame.t) : Z :=
  _iwidth self game + _border self * 2 + _margin self * 2.

Definition height (self : t) (game : SnakeGame.t) : Z :=
  _iheight self game + _border self * 2 + _margin self * 2.

(** The integers that [_draw_coord] hands to [pygame.Rect] for a
    coordinate. *)
Definition cell_args (self : t) (coord : Coordinate.t) : rect_args :=
  let u := _unit self in
  let xoffset := x self + _border self + _margin self in
  let yoffset := y self + _border self + _margin self in
  mk_rect (Coordinate.x coord * u + xoffset) (Coordinate.y coord * u + yoffset)
    u u.

(** [coord] is what the caller passes: [coord.x] raises on [None],
    before pygame is called. *)
Definition _draw_coord (lib : pygame) (self : t) (coord : option Coordinate.t)
    (color : string) : drawing :=
  match coord with
  | None => λ screen, (inl AttributeError, screen)
  | Some c => draw_rect lib (mk_call color (cell_args self c) 0)
  end.

(** The integers that [_draw_border] hands to [pygame.Rect]. *)
Definition outline_args (self : t) (game : SnakeGame.t) : rect_args :=
  mk_rect (x self + _margin self) (y self + _margin self)
    (_iwidth self game) (_iheight self game).

Definition _draw_border (lib : pygame) (self : t) (game : SnakeGame.t)
  : drawing :=
  let thickness := 1 in
  draw_rect lib (mk_call "black" (outline_args self game) thickness).

Definition _draw_apple (lib : pygame) (self : t)
    (apple : option Coordinate.t) : drawing :=
  _draw_coord lib self apple "red".

(** [for coord in snake: self._draw_coord(screen, coord, "green")] *)
Fixpoint _draw_snake (lib : pygame) (self : t) (snake : list Coordinate.t)
  : drawing :=
  λ screen,
  match snake with
  | [] => (inr (), screen)
  | coord :: snake' =>
      match _draw_coord lib self (Some coord) "green" screen with
      | (inr _, screen') => _draw_snake lib self snake' screen'
      | (inl e, screen') => (inl e, screen')
      end
  end.

Definition set_position (position : Z * Z) (self : t) : t :=
  mk (_unit self) position (_border self) (_margin self).

Definition draw (lib : pygame) (self : t) (game : SnakeGame.t) (border : bool)
  : drawing :=
  λ screen,
  match _draw_apple lib self (SnakeGame._apple game) screen with
  | (inl e, screen') => (inl e, screen')
  | (inr _, screen') =>
      match _draw_snake lib self (SnakeGame._snake game) screen' with
      | (inl e, screen'') => (inl e, screen'')
      | (inr _, screen'') =>
          if border then _draw_border lib self game screen''
          else (inr (), screen'')
      end
  end.

End SnakeCanvas.

(** ** Vocabulary of the statements *)

(** The coordinate next to [h] in direction [d]. *)
Definition neighbour (d : Direction.t) (h : Coordinate.t) : Coordinate.t :=
  match d with
  | Direction.LEFT => Coordinate.left h
  | Direction.RIGHT => Coordinate.right h
  | Direction.UP => Coordinate.up h
  | Direction.DOWN => Coordinate.down h
  end.

(** The object with another body, and with another apple. *)
Definition with_snake (l : list Coordinate.t) (self : SnakeGame.t) : SnakeGame.t :=
  (SnakeGame.set__snake l self).2.

Definition with_apple (a : option Coordinate.t) (self : SnakeGame.t) : SnakeGame.t :=
  (SnakeGame.set__apple a self).2.

(** The pairing of the directions in the words of the specification:
    [LEFT] with [RIGHT] and [UP] with [DOWN]. *)
Definition spec_opposite (d : Direction.t) : Direction.t :=
  match d with
  | Direction.LEFT => Direction.RIGHT
  | Direction.RIGHT => Direction.LEFT
  | Direction.UP => Direction.DOWN
  | Direction.DOWN => Direction.UP
  end.

(** Every cell of the body lies on the board. *)
Definition on_board (self : SnakeGame.t) : Prop :=
  Forall
    (λ c, Coordinate.is_outside c (SnakeGame._width self)
            (SnakeGame._height self) = false)
    (SnakeGame._snake self).

(** The body has no duplicate and the apple is not on the body. *)
Definition apart (self : SnakeGame.t) : Prop :=
  NoDup (SnakeGame._snake self)
  ∧ ∀ a, SnakeGame._apple self = Some a → a ∉ SnakeGame._snake self.

(** The coordinate [c] is one that [move] lets through its bounds
    check: it is inside, or it is what [overflows] returned. *)
Definition let_through (self : SnakeGame.t) (c : Coordinate.t) : Prop :=
  Coordinate.is_outside c (SnakeGame._width self) (SnakeGame._height self) = false
  ∨ ∃ c0, Coordinate.overflows c0 (SnakeGame._width self)
            (SnakeGame._height self) = Returned c.

(** The apple [a] is a legal choice for the body [l]: a cell of the
    board off the body, or none when the body covers the board. *)
Definition fresh_apple (self : SnakeGame.t) (l : list Coordinate.t)
    (a : option Coordinate.t) : Prop :=
  match a with
  | Some x => x ∈ SnakeGame._all_coordinates self ∧ x ∉ l
  | None => ∀ x, x ∈ SnakeGame._all_coordinates self → x ∈ l
  end.

(** The board of a [width] by [height] game and the body of
    [start_len] cells that the constructor builds. *)
Definition board (width height : Z) : gset Coordinate.t :=
  list_to_set
    (flat_map (λ x, (λ y, Coordinate.mk x y) <$> range height) (range width)).

Definition first_snake (start_len : Z) : list Coordinate.t :=
  (λ i, Coordinate.mk i 0) <$> range start_len.

(** A 5 by 5 game without overflow, turned up and then left after its
    construction: the snake faces its own body. *)
Definition turned_back : SnakeGame.t :=
  SnakeGame.mk 5 5 3 false Direction.LEFT
    [Coordinate.mk 0 0; Coordinate.mk 1 0; Coordinate.mk 2 0]
    (board 5 5) (Some (Coordinate.mk 1 3)).

(** A 5 by 5 game without overflow as the constructor leaves it when the
    draw puts the apple right ahead of the head. *)
Definition apple_ahead : SnakeGame.t :=
  SnakeGame.mk 5 5 3 false Direction.RIGHT
    [Coordinate.mk 0 0; Coordinate.mk 1 0; Coordinate.mk 2 0]
    (board 5 5) (Some (Coordinate.mk 3 0)).


(** [SnakeGame(width, height)] as [run_game] builds its game: the
    defaults of [__init__] are [start_len=3] and
    [overflows_allowed=True]. *)
Definition run_game_init (width height : Z) (rnd : nat) : outcome SnakeGame.t :=
  SnakeGame.__init__ width height 3 true rnd.

(** On a [width] by [height] board, [b] is one step from [a], directly
    or across an edge. *)
Definition adjacent (width height : Z) (a b : Coordinate.t) : Prop :=
  ∃ d, b = neighbour d a
       ∨ Coordinate.overflows (neighbour d a) width height = Returned b.

(** Each cell of the body is one step from the cell before it. *)
Definition contiguous (width height : Z) (l : list Coordinate.t) : Prop :=
  ∀ i a b, l !! i = Some a → l !! S i = Some b → adjacent width height a b.

(** What holds of the object of a well-configured [width] by [height]
    game after any calls. *)
Definition well_formed (width height : Z) (self : SnakeGame.t) : Prop :=
  SnakeGame._width self = width
  ∧ SnakeGame._height self = height
  ∧ SnakeGame._all_coordinates self = board width height
  ∧ SnakeGame._snake self ≠ []
  ∧ on_board self
  ∧ apart self
  ∧ contiguous width height (SnakeGame._snake self)
  ∧ match SnakeGame._apple self with
    | Some a => a ∈ board width height
    | None => ∀ c, c ∈ board width height → c ∈ SnakeGame._snake self
    end.

(** A 2 by 2 game that started with two cells and ate twice: the body
    fills the board in a ring, and the head is one step below the
    tail. *)
Definition ring : SnakeGame.t :=
  SnakeGame.mk 2 2 2 true Direction.UP
    [Coordinate.mk 0 0; Coordinate.mk 1 0; Coordinate.mk 1 1; Coordinate.mk 0 1]
    (board 2 2) None.

(** A 2 by 2 game with two cells and the apple below the head, as the
    constructor leaves it for the draw 1, and the calls that take it
    around the board until the body fills it. *)
Definition two_by_two : SnakeGame.t :=
  SnakeGame.mk 2 2 2 true Direction.RIGHT
    [Coordinate.mk 0 0; Coordinate.mk 1 0]
    (board 2 2) (Some (Coordinate.mk 1 1)).

Definition around : list SnakeGame.call :=
  [SnakeGame.call_set_direction Direction.DOWN; SnakeGame.call_move 0;
   SnakeGame.call_set_direction Direction.LEFT; SnakeGame.call_move 0;
   SnakeGame.call_set_direction Direction.UP].

(** * Properties *)

(** ** Equality and membership of coordinates *)

Lemma Coordinate_eq_instance (c d : Coordinate.t) :
  Coordinate.__eq__ c (PyInstance d) = Returned (bool_decide (c = d)).
Proof.
  unfold Coordinate.__eq__, Coordinate.totuple; simpl. f_equal.
  apply bool_decide_ext. destruct c, d; simpl. split; congruence.
Qed.

Lemma Coordinate_ne_instance (c d : Coordinate.t) :
  Coordinate.__ne__ c (PyInstance d) = Returned (bool_decide (c ≠ d)).
Proof.
  unfold Coordinate.__ne__. rewrite Coordinate_eq_instance. simpl.
  f_equal. by rewrite bool_decide_not.
Qed.

Lemma Coordinate_eq_optional (c : Coordinate.t) (a : option Coordinate.t) :
  Coordinate.__eq__ c (of_optional a) = Returned (bool_decide (a = Some c)).
Proof.
  destruct a as [d|]; simpl.
  - rewrite Coordinate_eq_instance. f_equal. apply bool_decide_ext.
    split; congruence.
  - reflexivity.
Qed.

Lemma Coordinate_contains (l : list Coordinate.t) (c : Coordinate.t) :
  Coordinate.__contains__ l c = Returned (bool_decide (c ∈ l)).
Proof.
  induction l as [|d l IH]; [done|].
  cbn [Coordinate.__contains__]. rewrite Coordinate_eq_instance.
  cbn [bind]. destruct (decide (d = c)) as [->|Hd].
  - by rewrite !bool_decide_eq_true_2 by (done || left).
  - rewrite (bool_decide_eq_false_2 (d = c)), IH by done. f_equal.
    apply bool_decide_ext. rewrite elem_of_cons. intuition congruence.
Qed.

(** ** Indexing *)

Lemma getitem_first {A} (l : list A) :
  getitem l 0 = match l with [] => Raised IndexError | a :: _ => Returned a end.
Proof. by destruct l. Qed.

Lemma getitem_last {A} (l : list A) :
  getitem l (-1) =
  match last l with Some a => Returned a | None => Raised IndexError end.
Proof.
  unfold getitem. rewrite (bool_decide_eq_true_2 (-1 < 0)) by lia.
  destruct l as [|a l _] using rev_ind; [done|].
  rewrite last_snoc, length_app; simpl.
  case_bool_decide; [lia|].
  replace (Z.to_nat (-1 + Z.of_nat (length l + 1))) with (length l) by lia.
  by rewrite lookup_app_r, Nat.sub_diag by lia.
Qed.

(** ** What the methods of [SnakeGame] compute *)

Lemma next_coord_unfold (self : SnakeGame.t) :
  SnakeGame._next_coord self =
  (match last (SnakeGame._snake self) with
   | Some h => Returned (neighbour (SnakeGame._direction self) h)
   | None => Raised IndexError
   end, self).
Proof.
  unfold SnakeGame._next_coord, SnakeGame.head, SnakeGame.mbind,
    SnakeGame.attr, SnakeGame.lift, SnakeGame.pure.
  destruct (SnakeGame._direction self); cbn;
    repeat (case_bool_decide; try congruence);
    rewrite getitem_last; by destruct (last (SnakeGame._snake self)).
Qed.

Lemma new_apple_unfold (rnd : nat) (self : SnakeGame.t) :
  ∃ a : option Coordinate.t,
    SnakeGame._new_apple rnd self = (Returned (), (SnakeGame.set__apple a self).2)
    ∧ match a with
      | Some c => c ∈ SnakeGame._all_coordinates self ∧ c ∉ SnakeGame._snake self
      | None => ∀ c, c ∈ SnakeGame._all_coordinates self → c ∈ SnakeGame._snake self
      end.
Proof.
  unfold SnakeGame._new_apple, SnakeGame._get_random_free_coordinate,
    SnakeGame._get_free_coordinates, SnakeGame.mbind, SnakeGame.attr,
    SnakeGame.lift, SnakeGame.pure, random_choice.
  set (free := SnakeGame._all_coordinates self ∖ list_to_set (SnakeGame._snake self)).
  case_bool_decide as Hnil.
  - exists None. split; [done|]. intros c Hc.
    apply elements_empty_inv in Hnil.
    destruct (decide (c ∈ SnakeGame._snake self)) as [|Hn]; [done|].
    exfalso. apply (not_elem_of_empty (C:=gset Coordinate.t) c).
    rewrite <- (leibniz_equiv _ _ Hnil). unfold free.
    apply elem_of_difference. split; [done|]. by rewrite elem_of_list_to_set.
  - destruct (lookup_lt_is_Some_2 (elements free) (rnd mod length (elements free))%nat)
      as [c Hc].
    { apply Nat.mod_upper_bound. by destruct (elements free). }
    rewrite Hc. exists (Some c). split; [done|].
    apply list_elem_of_lookup_2, elem_of_elements in Hc. unfold free in Hc.
    apply elem_of_difference in Hc as [? Hc]. split; [done|].
    by rewrite elem_of_list_to_set in Hc.
Qed.

Lemma move_checked_unfold (rnd : nat) (c : Coordinate.t) (self : SnakeGame.t) :
  SnakeGame.move_checked rnd c self =
  match SnakeGame._snake self with
  | [] => (Raised IndexError, self)
  | t :: rest =>
      if bool_decide (c ≠ t ∧ c ∈ t :: rest) then
        (Returned MoveResult.COLISION, self)
      else if bool_decide (SnakeGame._apple self = Some c) then
        (Returned MoveResult.OK,
         (SnakeGame._new_apple rnd (with_snake (t :: rest ++ [c]) self)).2)
      else (Returned MoveResult.OK, with_snake (rest ++ [c]) self)
  end.
Proof.
  unfold SnakeGame.move_checked, SnakeGame.tail, SnakeGame.append, SnakeGame.pop0,
    SnakeGame.mbind, SnakeGame.attr, SnakeGame.lift, SnakeGame.pure, with_snake.
  rewrite getitem_first. destruct (SnakeGame._snake self) as [|t rest] eqn:Hs; [done|].
  rewrite Coordinate_ne_instance.
  destruct (decide (c = t)) as [->|Hne].
  - rewrite (bool_decide_eq_false_2 (t ≠ t)) by tauto.
    rewrite (bool_decide_eq_false_2 (_ ∧ _)) by tauto.
    cbn. rewrite Hs, Coordinate_eq_optional. case_bool_decide; cbn.
    + match goal with |- context [SnakeGame._new_apple rnd ?s] =>
        by destruct (new_apple_unfold rnd s) as (a & -> & _) end.
    + done.
  - rewrite (bool_decide_eq_true_2 (c ≠ t)) by done.
    rewrite Hs, Coordinate_contains.
    destruct (decide (c ∈ t :: rest)) as [Hin|Hin].
    + rewrite (bool_decide_eq_true_2 (c ∈ _)) by done.
      by rewrite (bool_decide_eq_true_2 (_ ∧ _)) by done.
    + rewrite (bool_decide_eq_false_2 (c ∈ _)) by done.
      rewrite (bool_decide_eq_false_2 (_ ∧ _)) by tauto.
      cbn. rewrite Hs, Coordinate_eq_optional. case_bool_decide; cbn.
      * match goal with |- context [SnakeGame._new_apple rnd ?s] =>
          by destruct (new_apple_unfold rnd s) as (a & -> & _) end.
      * done.
Qed.

Lemma move_unfold (rnd : nat) (self : SnakeGame.t) :
  SnakeGame.move rnd self =
  match last (SnakeGame._snake self) with
  | None => (Raised IndexError, self)
  | Some h =>
      let c := neighbour (SnakeGame._direction self) h in
      let w := SnakeGame._width self in
      let h := SnakeGame._height self in
      if Coordinate.is_outside c w h then
        if SnakeGame._overflows_allowed self then
          match Coordinate.overflows c w h with
          | Returned c' => SnakeGame.move_checked rnd c' self
          | Raised e => (Raised e, self)
          end
        else (Returned MoveResult.OVERFLOW, self)
      else SnakeGame.move_checked rnd c self
  end.
Proof.
  unfold SnakeGame.move, SnakeGame.mbind at 1. rewrite next_coord_unfold.
  destruct (last (SnakeGame._snake self)) as [h|]; [|done].
  unfold SnakeGame.mbind, SnakeGame.attr, SnakeGame.lift, SnakeGame.pure. cbv zeta.
  destruct (Coordinate.is_outside _ _ _); [|done].
  destruct (SnakeGame._overflows_allowed self); [|done]. cbn.
  by destruct (Coordinate.overflows _ _ _).
Qed.

(** ** [MoveResult], [Direction] and [Coordinate] *)

Lemma get_opposite_lookup (d : Direction.t) :
  Direction.get_opposite d = Returned (spec_opposite d).
Proof. destruct d; by vm_compute. Qed.

(** C5, as the code has it: [is_lost] holds of [COLISION] alone, the
    tuple it tests names [COLISION] twice and [OVERFLOW] never, so that
    [OVERFLOW] is not a losing result for the loop driver. *)
Theorem is_lost_misses_OVERFLOW :
  MoveResult.is_lost MoveResult.OVERFLOW = false
  ∧ ∀ r, MoveResult.is_lost r = true ↔ r = MoveResult.COLISION.
Proof.
  split; [done|]. intros r. unfold MoveResult.is_lost.
  rewrite bool_decide_eq_true, !elem_of_cons, elem_of_nil. tauto.
Qed.

(** C9: [get_opposite] is total, it pairs [LEFT] with [RIGHT] and [UP]
    with [DOWN], and applying it twice gives the direction back. *)
Theorem get_opposite_involution :
  Direction.get_opposite Direction.LEFT = Returned Direction.RIGHT
  ∧ Direction.get_opposite Direction.RIGHT = Returned Direction.LEFT
  ∧ Direction.get_opposite Direction.UP = Returned Direction.DOWN
  ∧ Direction.get_opposite Direction.DOWN = Returned Direction.UP
  ∧ ∀ d, ∃ d', Direction.get_opposite d = Returned d'
               ∧ d' = spec_opposite d
               ∧ Direction.get_opposite d' = Returned d.
Proof.
  rewrite !get_opposite_lookup. repeat split; try done.
  intros d. exists (spec_opposite d). rewrite !get_opposite_lookup.
  by destruct d.
Qed.

(** C10: a coordinate compared with [None] gives [False], compared with
    a coordinate gives whether both components match, and compared with
    anything else, a tuple for one, raises [NotImplementedError]. *)
Theorem Coordinate_eq_partial (c : Coordinate.t) :
  Coordinate.__eq__ c PyNone = Returned false
  ∧ (∀ d, Coordinate.__eq__ c (PyInstance d) =
          Returned (bool_decide (Coordinate.x c = Coordinate.x d
                                 ∧ Coordinate.y c = Coordinate.y d)))
  ∧ (∀ v, v ≠ PyNone → (∀ d, v ≠ PyInstance d) →
          Coordinate.__eq__ c v = Raised NotImplementedError)
  ∧ Coordinate.__eq__ c (PyTuple [Coordinate.x c; Coordinate.y c]) =
    Raised NotImplementedError.
Proof.
  repeat split; try done.
  - intros d. rewrite Coordinate_eq_instance. f_equal. apply bool_decide_ext.
    destruct c, d; simpl. split; [by intros [= -> ->]|by intros [-> ->]].
  - intros [] Hn Hi; try done. by destruct (Hi c0).
Qed.

(** C8: for extents of at least 1, [overflows] returns, whatever the
    components of the coordinate, a coordinate inside the board, each
    component being congruent to the one it comes from. *)
Theorem overflows_in_bounds (c : Coordinate.t) (width height : Z) :
  1 ≤ width → 1 ≤ height →
  ∃ c', Coordinate.overflows c width height = Returned c'
        ∧ 0 ≤ Coordinate.x c' < width
        ∧ 0 ≤ Coordinate.y c' < height
        ∧ (∃ q, Coordinate.x c = q * width + Coordinate.x c')
        ∧ (∃ q, Coordinate.y c = q * height + Coordinate.y c')
        ∧ Coordinate.is_outside c' width height = false.
Proof.
  intros Hw Hh. unfold Coordinate.overflows, py_mod.
  rewrite !decide_False by lia. eexists. split; [done|]. simpl.
  pose proof (Z.mod_pos_bound (Coordinate.x c) width ltac:(lia)).
  pose proof (Z.mod_pos_bound (Coordinate.y c) height ltac:(lia)).
  split; [done|]. split; [done|]. split; [|split].
  - exists (Coordinate.x c / width). rewrite Z.mul_comm. apply Z.div_mod. lia.
  - exists (Coordinate.y c / height). rewrite Z.mul_comm. apply Z.div_mod. lia.
  - unfold Coordinate.is_outside; simpl.
    by rewrite !bool_decide_eq_false_2 by lia.
Qed.

Lemma overflows_in_bounds_witness :
  ∃ c', Coordinate.overflows (Coordinate.mk (-1) 7) 5 5 = Returned c'
        ∧ 0 ≤ Coordinate.x c' < 5
        ∧ 0 ≤ Coordinate.y c' < 5
        ∧ (∃ q, -1 = q * 5 + Coordinate.x c')
        ∧ (∃ q, 7 = q * 5 + Coordinate.y c')
        ∧ Coordinate.is_outside c' 5 5 = false.
Proof. apply (overflows_in_bounds (Coordinate.mk (-1) 7) 5 5); lia. Defined.

(** ** [SnakeGame.set_direction] *)

(** C7: [set_direction d] never raises; it leaves the direction as it
    is when [d] is the opposite of the current direction, [LEFT] for
    [RIGHT], [RIGHT] for [LEFT], [UP] for [DOWN] and [DOWN] for [UP],
    and sets it to [d] otherwise, and it writes no other attribute. *)
Theorem set_direction_spec (d : Direction.t) (self : SnakeGame.t) :
  ∃ self',
    SnakeGame.set_direction d self = (Returned (), self')
    ∧ (d = spec_opposite (SnakeGame._direction self) →
       SnakeGame._direction self' = SnakeGame._direction self)
    ∧ (d ≠ spec_opposite (SnakeGame._direction self) →
       SnakeGame._direction self' = d)
    ∧ SnakeGame._snake self' = SnakeGame._snake self
    ∧ SnakeGame._apple self' = SnakeGame._apple self
    ∧ SnakeGame._width self' = SnakeGame._width self
    ∧ SnakeGame._height self' = SnakeGame._height self
    ∧ SnakeGame._start_len self' = SnakeGame._start_len self
    ∧ SnakeGame._overflows_allowed self' = SnakeGame._overflows_allowed self
    ∧ SnakeGame._all_coordinates self' = SnakeGame._all_coordinates self.
Proof.
  unfold SnakeGame.set_direction, SnakeGame.mbind, SnakeGame.attr,
    SnakeGame.lift, SnakeGame.pure, SnakeGame.set__direction,
    Direction.is_opposed.
  destruct self as [w h sl ov c l all a]; cbn [SnakeGame._direction].
  rewrite get_opposite_lookup. cbn [bind].
  destruct (decide (spec_opposite c = d)) as [Heq|Hne].
  - rewrite bool_decide_eq_true_2 by done. eexists. split; [done|].
    cbn. split; [done|]. split; [|done]. intros Hn. by subst d.
  - rewrite bool_decide_eq_false_2 by done. eexists. split; [done|].
    cbn. split; [|done]. intros ->. done.
Qed.

(** ** [SnakeGame.move], case by case *)

Lemma candidate_unfold (self : SnakeGame.t) :
  SnakeGame.candidate self =
  (match last (SnakeGame._snake self) with
   | None => Raised IndexError
   | Some h =>
       let c := neighbour (SnakeGame._direction self) h in
       let w := SnakeGame._width self in
       let h := SnakeGame._height self in
       if Coordinate.is_outside c w h && SnakeGame._overflows_allowed self
       then Coordinate.overflows c w h
       else Returned c
   end, self).
Proof.
  unfold SnakeGame.candidate, SnakeGame.mbind at 1. rewrite next_coord_unfold.
  destruct (last (SnakeGame._snake self)) as [h|]; [|done].
  unfold SnakeGame.mbind, SnakeGame.attr, SnakeGame.lift, SnakeGame.pure. cbv zeta.
  by destruct (Coordinate.is_outside _ _ _ && _).
Qed.

Lemma is_outside_false (c : Coordinate.t) (width height : Z) :
  Coordinate.is_outside c width height = false ↔
  0 ≤ Coordinate.x c < width ∧ 0 ≤ Coordinate.y c < height.
Proof.
  unfold Coordinate.is_outside.
  repeat case_bool_decide; cbn; split; (done || lia).
Qed.

Lemma overflows_inside (c c' : Coordinate.t) (width height : Z) :
  1 ≤ width → 1 ≤ height →
  Coordinate.overflows c width height = Returned c' →
  Coordinate.is_outside c' width height = false.
Proof.
  intros Hw Hh. unfold Coordinate.overflows, py_mod.
  rewrite !decide_False by lia. intros [= <-].
  pose proof (Z.mod_pos_bound (Coordinate.x c) width ltac:(lia)).
  pose proof (Z.mod_pos_bound (Coordinate.y c) height ltac:(lia)).
  unfold Coordinate.is_outside; simpl.
  by rewrite !bool_decide_eq_false_2 by lia.
Qed.

Lemma move_cases (rnd : nat) (self : SnakeGame.t) :
  (∃ e, (SnakeGame.candidate self).1 = Raised e
        ∧ SnakeGame.move rnd self = (Raised e, self))
  ∨ (∃ c, (SnakeGame.candidate self).1 = Returned c
          ∧ Coordinate.is_outside c (SnakeGame._width self)
              (SnakeGame._height self) = true
          ∧ SnakeGame._overflows_allowed self = false
          ∧ SnakeGame.move rnd self = (Returned MoveResult.OVERFLOW, self))
  ∨ (∃ c t rest, (SnakeGame.candidate self).1 = Returned c
          ∧ SnakeGame._snake self = t :: rest
          ∧ c ≠ t ∧ c ∈ t :: rest
          ∧ SnakeGame.move rnd self = (Returned MoveResult.COLISION, self))
  ∨ (∃ c t rest a, (SnakeGame.candidate self).1 = Returned c
          ∧ SnakeGame._snake self = t :: rest
          ∧ (c = t ∨ c ∉ t :: rest)
          ∧ let_through self c
          ∧ SnakeGame._apple self = Some c
          ∧ fresh_apple self (t :: rest ++ [c]) a
          ∧ SnakeGame.move rnd self =
            (Returned MoveResult.OK,
             with_apple a (with_snake (t :: rest ++ [c]) self)))
  ∨ (∃ c t rest, (SnakeGame.candidate self).1 = Returned c
          ∧ SnakeGame._snake self = t :: rest
          ∧ (c = t ∨ c ∉ t :: rest)
          ∧ let_through self c
          ∧ SnakeGame._apple self ≠ Some c
          ∧ SnakeGame.move rnd self =
            (Returned MoveResult.OK, with_snake (rest ++ [c]) self)).
Proof.
  rewrite move_unfold, candidate_unfold. cbn [fst].
  destruct (last (SnakeGame._snake self)) as [h|] eqn:Hlast; [|left; eauto].
  cbv zeta. set (c0 := neighbour _ h).
  assert (∀ c, let_through self c →
    (∃ t rest, SnakeGame._snake self = t :: rest ∧ c ≠ t ∧ c ∈ t :: rest
       ∧ SnakeGame.move_checked rnd c self = (Returned MoveResult.COLISION, self))
    ∨ (∃ t rest a, SnakeGame._snake self = t :: rest
       ∧ (c = t ∨ c ∉ t :: rest) ∧ SnakeGame._apple self = Some c
       ∧ fresh_apple self (t :: rest ++ [c]) a
       ∧ SnakeGame.move_checked rnd c self =
         (Returned MoveResult.OK,
          with_apple a (with_snake (t :: rest ++ [c]) self)))
    ∨ (∃ t rest, SnakeGame._snake self = t :: rest
       ∧ (c = t ∨ c ∉ t :: rest) ∧ SnakeGame._apple self ≠ Some c
       ∧ SnakeGame.move_checked rnd c self =
         (Returned MoveResult.OK, with_snake (rest ++ [c]) self))) as Hchk.
  { intros c _. rewrite move_checked_unfold.
    destruct (SnakeGame._snake self) as [|t rest] eqn:Hs; [done|].
    case_bool_decide as Hhit.
    { left. exists t, rest. tauto. }
    assert (c = t ∨ c ∉ t :: rest) as Hfree.
    { destruct (decide (c = t)); [by left|tauto]. }
    case_bool_decide as Heat.
    - right; left.
      destruct (new_apple_unfold rnd (with_snake (t :: rest ++ [c]) self))
        as (a & -> & Ha).
      exists t, rest, a. repeat split; done.
    - right; right. exists t, rest. repeat split; done. }
  destruct (Coordinate.is_outside c0 _ _) eqn:Hout; cbn [andb].
  - destruct (SnakeGame._overflows_allowed self) eqn:Hov.
    + destruct (Coordinate.overflows c0 _ _) as [c|e] eqn:Hwrap; [|left; eauto].
      assert (let_through self c) as Hc by (right; eauto).
      destruct (Hchk c Hc) as [(t & rest & ? & ? & ? & ->)
        |[(t & rest & a & ? & ? & ? & ? & ->)|(t & rest & ? & ? & ? & ->)]].
      * do 2 right; left. exists c, t, rest. done.
      * do 3 right; left. exists c, t, rest, a. done.
      * do 4 right. exists c, t, rest. done.
    + right; left. exists c0. done.
  - assert (let_through self c0) as Hc by (by left).
    destruct (Hchk c0 Hc) as [(t & rest & ? & ? & ? & ->)
      |[(t & rest & a & ? & ? & ? & ? & ->)|(t & rest & ? & ? & ? & ->)]].
    + do 2 right; left. exists c0, t, rest. done.
    + do 3 right; left. exists c0, t, rest, a. done.
    + do 4 right. exists c0, t, rest. done.
Qed.

(** C2: when [move] returns [OVERFLOW] or [COLISION] the object is as
    it was before the call: same body, apple, score and direction. *)
Theorem move_atomic (rnd : nat) (self self' : SnakeGame.t) (r : MoveResult.t) :
  SnakeGame.move rnd self = (Returned r, self') →
  r = MoveResult.OVERFLOW ∨ r = MoveResult.COLISION →
  self' = self
  ∧ SnakeGame._snake self' = SnakeGame._snake self
  ∧ SnakeGame._apple self' = SnakeGame._apple self
  ∧ (SnakeGame.score self').1 = (SnakeGame.score self).1
  ∧ SnakeGame._direction self' = SnakeGame._direction self.
Proof.
  intros Hmove Hr.
  assert (self' = self) as ->; [|done].
  destruct (move_cases rnd self) as [(e & _ & H)|[(c & _ & _ & _ & H)
    |[(c & t & rest & _ & _ & _ & _ & H)|[(c & t & rest & a & H)
    |(c & t & rest & H)]]]].
  - congruence.
  - congruence.
  - congruence.
  - destruct H as (_ & _ & _ & _ & _ & _ & H). rewrite H in Hmove.
    injection Hmove as <- _. by destruct Hr.
  - destruct H as (_ & _ & _ & _ & _ & H). rewrite H in Hmove.
    injection Hmove as <- _. by destruct Hr.
Qed.

Lemma move_atomic_witness :
  SnakeGame.move 0 turned_back = (Returned MoveResult.COLISION, turned_back)
  ∧ turned_back = turned_back
  ∧ SnakeGame._snake turned_back = SnakeGame._snake turned_back
  ∧ SnakeGame._apple turned_back = SnakeGame._apple turned_back
  ∧ (SnakeGame.score turned_back).1 = (SnakeGame.score turned_back).1
  ∧ SnakeGame._direction turned_back = SnakeGame._direction turned_back.
Proof.
  assert (SnakeGame.move 0 turned_back
          = (Returned MoveResult.COLISION, turned_back)) as Hmove
    by (vm_compute; reflexivity).
  split; [exact Hmove|].
  apply (move_atomic 0 turned_back turned_back MoveResult.COLISION Hmove).
  right. reflexivity.
Defined.

(** C6: when [move] returns [OK], the candidate is the new head; if it
    is the apple of before the call, the body is the old body with the
    new head appended, so that its length and the score grow by exactly
    1; otherwise the length and the score are those of before. *)
Theorem move_growth (rnd : nat) (self self' : SnakeGame.t) :
  SnakeGame.move rnd self = (Returned MoveResult.OK, self') →
  ∃ c s,
    (SnakeGame.head self').1 = Returned c
    ∧ (SnakeGame.score self).1 = Returned s
    ∧ (SnakeGame._apple self = Some c →
       SnakeGame._snake self' = SnakeGame._snake self ++ [c]
       ∧ length (SnakeGame._snake self') = S (length (SnakeGame._snake self))
       ∧ (SnakeGame.score self').1 = Returned (s + 1))
    ∧ (SnakeGame._apple self ≠ Some c →
       SnakeGame._snake self' = drop 1 (SnakeGame._snake self) ++ [c]
       ∧ length (SnakeGame._snake self') = length (SnakeGame._snake self)
       ∧ (SnakeGame.score self').1 = Returned s).
Proof.
  intros Hmove.
  assert (∀ g, (SnakeGame.score g).1 =
    Returned (Z.of_nat (length (SnakeGame._snake g)) - SnakeGame._start_len g))
    as Hscore by done.
  assert (∀ g, (SnakeGame.head g).1 = getitem (SnakeGame._snake g) (-1))
    as Hhead by done.
  destruct (move_cases rnd self) as [(e & _ & H)|[(c & _ & _ & _ & H)
    |[(c & t & rest & _ & _ & _ & _ & H)|[(c & t & rest & a & H)
    |(c & t & rest & H)]]]]; try congruence.
  - destruct H as (_ & Hs & _ & _ & Ha & _ & H). rewrite H in Hmove.
    injection Hmove as <-. exists c, (Z.of_nat (length (t :: rest)) - SnakeGame._start_len self).
    rewrite Hhead, !Hscore, Hs. cbn [with_apple with_snake SnakeGame.set__apple
      SnakeGame.set__snake snd SnakeGame._snake SnakeGame._start_len].
    change (t :: rest ++ [c]) with ((t :: rest) ++ [c]).
    rewrite getitem_last, last_snoc.
    split; [done|]. split; [done|]. split; [|done]. intros _.
    split; [done|]. rewrite length_app. cbn [length].
    split; [lia|]. f_equal. lia.
  - destruct H as (_ & Hs & _ & _ & Ha & H). rewrite H in Hmove.
    injection Hmove as <-. exists c, (Z.of_nat (length (t :: rest)) - SnakeGame._start_len self).
    rewrite Hhead, !Hscore, Hs. cbn [with_apple with_snake SnakeGame.set__apple
      SnakeGame.set__snake snd SnakeGame._snake SnakeGame._start_len].
    rewrite getitem_last, last_snoc.
    split; [done|]. split; [done|]. split; [done|]. intros _.
    split; [done|]. rewrite length_app. cbn [length].
    split; [lia|]. f_equal. lia.
Qed.

Lemma move_growth_witness :
  SnakeGame.move 2 apple_ahead
  = (Returned MoveResult.OK, (SnakeGame.move 2 apple_ahead).2)
  ∧ ∃ c s,
      (SnakeGame.head (SnakeGame.move 2 apple_ahead).2).1 = Returned c
      ∧ (SnakeGame.score apple_ahead).1 = Returned s
      ∧ (SnakeGame._apple apple_ahead = Some c →
         SnakeGame._snake (SnakeGame.move 2 apple_ahead).2
         = SnakeGame._snake apple_ahead ++ [c]
         ∧ length (SnakeGame._snake (SnakeGame.move 2 apple_ahead).2)
           = S (length (SnakeGame._snake apple_ahead))
         ∧ (SnakeGame.score (SnakeGame.move 2 apple_ahead).2).1
           = Returned (s + 1))
      ∧ (SnakeGame._apple apple_ahead ≠ Some c →
         SnakeGame._snake (SnakeGame.move 2 apple_ahead).2
         = drop 1 (SnakeGame._snake apple_ahead) ++ [c]
         ∧ length (SnakeGame._snake (SnakeGame.move 2 apple_ahead).2)
           = length (SnakeGame._snake apple_ahead)
         ∧ (SnakeGame.score (SnakeGame.move 2 apple_ahead).2).1 = Returned s).
Proof.
  assert (SnakeGame.move 2 apple_ahead
          = (Returned MoveResult.OK, (SnakeGame.move 2 apple_ahead).2)) as Hmove
    by (vm_compute; reflexivity).
  split; [exact Hmove|].
  apply (move_growth 2 apple_ahead (SnakeGame.move 2 apple_ahead).2 Hmove).
Defined.

(** ** Invariants of the calls *)

Lemma set_direction_unfold (d : Direction.t) (self : SnakeGame.t) :
  SnakeGame.set_direction d self =
  (Returned (),
   if bool_decide (spec_opposite (SnakeGame._direction self) = d) then self
   else (SnakeGame.set__direction d self).2).
Proof.
  unfold SnakeGame.set_direction, SnakeGame.mbind, SnakeGame.attr,
    SnakeGame.lift, SnakeGame.pure, Direction.is_opposed.
  rewrite get_opposite_lookup. cbn [bind]. by case_bool_decide.
Qed.

Lemma run_invariant (P : SnakeGame.t → Prop) :
  (∀ self c, P self → P (SnakeGame.perform self c)) →
  ∀ calls self, P self → P (SnakeGame.run calls self).
Proof.
  intros Hstep calls. unfold SnakeGame.run.
  induction calls as [|c calls IH]; intros self HP; [done|].
  cbn [foldl]. apply IH, Hstep, HP.
Qed.

Lemma apart_move (rnd : nat) (self : SnakeGame.t) :
  apart self → apart (SnakeGame.move rnd self).2.
Proof.
  intros [Hnd Hap].
  destruct (move_cases rnd self) as [(e & _ & ->)|[(c & _ & _ & _ & ->)
    |[(c & t & rest & _ & _ & _ & _ & ->)|[(c & t & rest & a & H)
    |(c & t & rest & H)]]]]; try done.
  - destruct H as (_ & Hs & Hfree & _ & Ha & Hfresh & ->).
    rewrite Hs in Hnd, Hap. specialize (Hap c Ha).
    destruct Hfree as [->|Hfree]; [by destruct Hap; left|].
    split; cbn.
    + change (t :: rest ++ [c]) with ((t :: rest) ++ [c]).
      apply NoDup_app. split; [done|]. split; [|apply NoDup_singleton].
      intros x Hx ->%list_elem_of_singleton. done.
    + intros x ->. by destruct Hfresh.
  - destruct H as (_ & Hs & Hfree & _ & Ha & ->).
    rewrite Hs in Hnd, Hap. apply NoDup_cons in Hnd as [Ht Hnd].
    split; cbn.
    + apply NoDup_app. split; [done|]. split; [|apply NoDup_singleton].
      intros x Hx ->%list_elem_of_singleton.
      destruct Hfree as [->|Hfree]; [done|]. apply Hfree. by right.
    + intros x Hx. specialize (Hap x Hx).
      rewrite elem_of_app, list_elem_of_singleton. intros [Hin| ->].
      * apply Hap. by right.
      * congruence.
Qed.

Lemma apart_perform (self : SnakeGame.t) (c : SnakeGame.call) :
  apart self → apart (SnakeGame.perform self c).
Proof.
  destruct c as [d|rnd]; cbn [SnakeGame.perform]; [|apply apart_move].
  rewrite set_direction_unfold. cbn [snd]. by case_bool_decide.
Qed.

Lemma on_board_move (rnd : nat) (self : SnakeGame.t) :
  1 ≤ SnakeGame._width self → 1 ≤ SnakeGame._height self →
  on_board self → on_board (SnakeGame.move rnd self).2.
Proof.
  intros Hw Hh Hon.
  assert (∀ c, let_through self c →
    Coordinate.is_outside c (SnakeGame._width self) (SnakeGame._height self)
    = false) as Hin.
  { intros c [?|[c0 ?]]; [done|]. by eapply overflows_inside. }
  destruct (move_cases rnd self) as [(e & _ & ->)|[(c & _ & _ & _ & ->)
    |[(c & t & rest & _ & _ & _ & _ & ->)|[(c & t & rest & a & H)
    |(c & t & rest & H)]]]]; try done.
  - destruct H as (_ & Hs & _ & Hc & _ & _ & ->).
    unfold on_board in *. rewrite Hs in Hon. cbn.
    change (t :: rest ++ [c]) with ((t :: rest) ++ [c]).
    apply Forall_app. split; [done|]. apply Forall_singleton. by apply Hin.
  - destruct H as (_ & Hs & _ & Hc & _ & ->).
    unfold on_board in *. rewrite Hs in Hon. cbn.
    apply Forall_cons in Hon as [_ Hon].
    apply Forall_app. split; [done|]. apply Forall_singleton. by apply Hin.
Qed.

Lemma elem_of_board (c : Coordinate.t) (width height : Z) :
  c ∈ board width height ↔
  0 ≤ Coordinate.x c < width ∧ 0 ≤ Coordinate.y c < height.
Proof.
  unfold board, range. rewrite elem_of_list_to_set, list_elem_of_In, in_flat_map.
  split.
  - intros (i & Hi%list_elem_of_In & Hc%list_elem_of_In).
    apply list_elem_of_fmap in Hc as (j & -> & Hj).
    apply elem_of_seqZ in Hi, Hj. simpl. lia.
  - intros [Hx Hy]. exists (Coordinate.x c). rewrite <- !list_elem_of_In. split.
    + apply elem_of_seqZ. lia.
    + apply list_elem_of_fmap. exists (Coordinate.y c). split; [by destruct c|].
      apply elem_of_seqZ. lia.
Qed.

Lemma elem_of_first_snake (c : Coordinate.t) (start_len : Z) :
  c ∈ first_snake start_len ↔
  0 ≤ Coordinate.x c < start_len ∧ Coordinate.y c = 0.
Proof.
  unfold first_snake, range. rewrite list_elem_of_fmap. split.
  - intros (i & -> & Hi%elem_of_seqZ). simpl. lia.
  - intros [Hx Hy]. exists (Coordinate.x c). split.
    + destruct c; simpl in *. by subst.
    + apply elem_of_seqZ. lia.
Qed.

Lemma NoDup_first_snake (start_len : Z) : NoDup (first_snake start_len).
Proof.
  apply NoDup_fmap_2; [|apply NoDup_seqZ]. by intros i j [= ->].
Qed.

Lemma init_unfold (width height start_len : Z) (ov : bool) (rnd : nat) :
  ∃ a, SnakeGame.__init__ width height start_len ov rnd =
       Returned (SnakeGame.mk width height start_len ov Direction.RIGHT
                   (first_snake start_len) (board width height) a)
       ∧ match a with
         | Some x => x ∈ board width height ∧ x ∉ first_snake start_len
         | None => ∀ x, x ∈ board width height → x ∈ first_snake start_len
         end.
Proof.
  unfold SnakeGame.__init__. fold (board width height) (first_snake start_len).
  destruct (new_apple_unfold rnd
    (SnakeGame.mk width height start_len ov Direction.RIGHT
       (first_snake start_len) (board width height) None)) as (a & -> & Ha).
  by exists a.
Qed.

(** ** The constructor *)

(** C4, as the code has it: the constructor checks nothing.  For every
    width, height and start length it returns an object whose body is
    [(0,0), ..., (start_len - 1, 0)], empty when [start_len <= 0], with
    direction [RIGHT], and whose apple is a cell of the board off the
    body, or no apple when the board has no such cell. *)
Theorem init_accepts_any_configuration
    (width height start_len : Z) (ov : bool) (rnd : nat) :
  ∃ self,
    SnakeGame.__init__ width height start_len ov rnd = Returned self
    ∧ SnakeGame._width self = width
    ∧ SnakeGame._height self = height
    ∧ SnakeGame._start_len self = start_len
    ∧ SnakeGame._overflows_allowed self = ov
    ∧ SnakeGame._direction self = Direction.RIGHT
    ∧ SnakeGame._snake self = (λ i, Coordinate.mk i 0) <$> seqZ 0 start_len
    ∧ (∀ c, c ∈ SnakeGame._snake self ↔
            0 ≤ Coordinate.x c < start_len ∧ Coordinate.y c = 0)
    ∧ match SnakeGame._apple self with
      | Some a =>
          0 ≤ Coordinate.x a < width ∧ 0 ≤ Coordinate.y a < height
          ∧ a ∉ SnakeGame._snake self
      | None =>
          ∀ a, 0 ≤ Coordinate.x a < width → 0 ≤ Coordinate.y a < height →
               a ∈ SnakeGame._snake self
      end.
Proof.
  destruct (init_unfold width height start_len ov rnd) as (a & -> & Ha).
  eexists. split; [done|]. cbn. repeat (split; [done|]).
  split; [intros c; apply elem_of_first_snake|].
  destruct a as [a|].
  - destruct Ha as [Hb%elem_of_board Hs]. tauto.
  - intros a Hx Hy. apply Ha, elem_of_board. done.
Qed.

(** C4 as stated fails: a 2 by 1 game with a start length of 3 is
    constructed, and its body has the cell [(2,0)] outside the board. *)
Lemma init_accepts_misconfiguration :
  (2 < 1 ∨ 1 < 1 ∨ 3 > 2)
  ∧ (∃ self, SnakeGame.__init__ 2 1 3 true 0 = Returned self
             ∧ SnakeGame._snake self =
               [Coordinate.mk 0 0; Coordinate.mk 1 0; Coordinate.mk 2 0]
             ∧ Coordinate.is_outside (Coordinate.mk 2 0) 2 1 = true)
  ∧ ¬ (∀ width height start_len ov rnd,
         width < 1 ∨ height < 1 ∨ start_len > width →
         ∃ e, SnakeGame.__init__ width height start_len ov rnd = Raised e).
Proof.
  split; [lia|].
  destruct (init_unfold 2 1 3 true 0) as (a & Hinit & _).
  split.
  - eexists. split; [exact Hinit|]. by vm_compute.
  - intros Hclaim. destruct (Hclaim 2 1 3 true 0%nat) as [e He]; [lia|].
    congruence.
Qed.

(** ** Reachable objects *)

(** C1: from a construction with [width >= 1], [height >= 1] and
    [1 <= start_len <= width], after any sequence of [set_direction]
    and [move] calls, the body has no duplicate and the apple is equal
    to no coordinate of the body. *)
Theorem body_and_apple_apart
    (width height start_len : Z) (ov : bool) (rnd : nat)
    (calls : list SnakeGame.call) :
  1 ≤ width → 1 ≤ height → 1 ≤ start_len ≤ width →
  ∃ self,
    SnakeGame.__init__ width height start_len ov rnd = Returned self
    ∧ NoDup (SnakeGame._snake (SnakeGame.run calls self))
    ∧ ∀ c, c ∈ SnakeGame._snake (SnakeGame.run calls self) →
           SnakeGame._apple (SnakeGame.run calls self) ≠ Some c.
Proof.
  intros _ _ _.
  destruct (init_unfold width height start_len ov rnd) as (a & -> & Ha).
  eexists. split; [done|].
  match goal with |- context [SnakeGame.run calls ?s] =>
    assert (apart (SnakeGame.run calls s)) as [Hnd Hap] end.
  { apply (run_invariant apart apart_perform). split; cbn.
    - apply NoDup_first_snake.
    - intros x ->. by destruct Ha. }
  split; [done|]. intros c Hc Hx. by apply (Hap c).
Qed.

Lemma body_and_apple_apart_witness :
  ∃ self,
    SnakeGame.__init__ 5 5 3 false 7 = Returned self
    ∧ NoDup (SnakeGame._snake (SnakeGame.run
        [SnakeGame.call_move 1; SnakeGame.call_set_direction Direction.DOWN;
         SnakeGame.call_move 2] self))
    ∧ ∀ c, c ∈ SnakeGame._snake (SnakeGame.run
        [SnakeGame.call_move 1; SnakeGame.call_set_direction Direction.DOWN;
         SnakeGame.call_move 2] self) →
           SnakeGame._apple (SnakeGame.run
        [SnakeGame.call_move 1; SnakeGame.call_set_direction Direction.DOWN;
         SnakeGame.call_move 2] self) ≠ Some c.
Proof.
  apply (body_and_apple_apart 5 5 3 false 7
    [SnakeGame.call_move 1; SnakeGame.call_set_direction Direction.DOWN;
     SnakeGame.call_move 2]); lia.
Defined.

(** The body of a reachable object of such a construction is not empty
    and lies on the board, whose extents are at least 1. *)
Lemma reachable_on_board
    (width height start_len : Z) (ov : bool) (rnd : nat)
    (calls : list SnakeGame.call) (self : SnakeGame.t) :
  1 ≤ width → 1 ≤ height → 1 ≤ start_len ≤ width →
  SnakeGame.__init__ width height start_len ov rnd = Returned self →
  on_board (SnakeGame.run calls self).
Proof.
  intros Hw Hh Hsl.
  destruct (init_unfold width height start_len ov rnd) as (a & -> & Ha).
  intros [= <-].
  match goal with |- on_board (SnakeGame.run calls ?s) =>
    enough (1 ≤ SnakeGame._width (SnakeGame.run calls s)
            ∧ 1 ≤ SnakeGame._height (SnakeGame.run calls s)
            ∧ on_board (SnakeGame.run calls s)) by tauto;
    apply (run_invariant (λ g, 1 ≤ SnakeGame._width g
                               ∧ 1 ≤ SnakeGame._height g ∧ on_board g))
  end.
  - intros g [d|n] (Hgw & Hgh & Hon); cbn [SnakeGame.perform].
    + rewrite set_direction_unfold. cbn [snd]. by case_bool_decide.
    + pose proof (on_board_move n g Hgw Hgh Hon) as Hon'.
      destruct (move_cases n g) as [(e & _ & H)|[(c & _ & _ & _ & H)
        |[(c & t & rest & _ & _ & _ & _ & H)|[(c & t & rest & a' & H)
        |(c & t & rest & H)]]]].
      * by rewrite H.
      * by rewrite H.
      * by rewrite H.
      * destruct H as (_ & _ & _ & _ & _ & _ & H). rewrite H in Hon' |- *. done.
      * destruct H as (_ & _ & _ & _ & _ & H). rewrite H in Hon' |- *. done.
  - cbn. split; [done|]. split; [done|]. apply Forall_forall.
    intros c [Hx Hy]%elem_of_first_snake. apply is_outside_false. cbn. lia.
Qed.

(** ** The collision check *)




(** On an object whose body lies on the board, as the body of every
    reachable object of a well-configured game does, the candidate that
    is in the body passes the bounds check. *)
Lemma move_COLISION_iff_on_board (rnd : nat) (self : SnakeGame.t) :
  on_board self →
  ((SnakeGame.move rnd self).1 = Returned MoveResult.COLISION ↔
   ∃ c t, (SnakeGame.candidate self).1 = Returned c
          ∧ (SnakeGame.tail self).1 = Returned t
          ∧ c ≠ t
          ∧ c ∈ SnakeGame._snake self).
Proof.
  intros Hon.
  assert (∀ g, (SnakeGame.tail g).1 = getitem (SnakeGame._snake g) 0)
    as Htail by done.
  rewrite Htail, getitem_first.
  destruct (move_cases rnd self) as [(e & Hc & ->)|[(c & Hc & Hout & _ & ->)
    |[(c & t & rest & Hc & Hs & Hne & Hin & ->)|[(c & t & rest & a & H)
    |(c & t & rest & H)]]]]; cbn [fst].
  - split; [done|]. intros (c & t & ? & _). congruence.
  - split; [done|].
    intros (c' & t & Hc' & _ & _ & Hin). rewrite Hc in Hc'. injection Hc' as <-.
    unfold on_board in Hon. rewrite Forall_forall in Hon.
    specialize (Hon c Hin). congruence.
  - rewrite Hs. split; [|done]. intros _. exists c, t. done.
  - destruct H as (Hc & Hs & Hfree & _ & _ & _ & ->). cbn [fst]. rewrite Hs.
    split; [done|].
    intros (c' & t' & Hc' & [= <-] & Hne & Hin). rewrite Hc in Hc'.
    injection Hc' as <-. by destruct Hfree.
  - destruct H as (Hc & Hs & Hfree & _ & _ & ->). cbn [fst]. rewrite Hs.
    split; [done|].
    intros (c' & t' & Hc' & [= <-] & Hne & Hin). rewrite Hc in Hc'.
    injection Hc' as <-. by destruct Hfree.
Qed.


(** ** The objects of the examples are reachable, and every free cell
    can be drawn *)

Lemma turned_back_reachable :
  ∃ self,
    SnakeGame.__init__ 5 5 3 false 7 = Returned self
    ∧ SnakeGame.run [SnakeGame.call_set_direction Direction.UP;
                     SnakeGame.call_set_direction Direction.LEFT] self
      = turned_back.
Proof. eexists. split; by vm_compute. Qed.

Lemma apple_ahead_reachable :
  SnakeGame.__init__ 5 5 3 false 4 = Returned apple_ahead.
Proof. by vm_compute. Qed.

Lemma random_choice_complete {A} (l : list A) (a : A) :
  a ∈ l → ∃ rnd, random_choice rnd l = Returned a.
Proof.
  intros [i Hi]%list_elem_of_lookup. exists i. unfold random_choice.
  apply lookup_lt_Some in Hi as Hlt. by rewrite Nat.mod_small, Hi.
Qed.

Lemma new_apple_complete (self : SnakeGame.t) (c : Coordinate.t) :
  c ∈ SnakeGame._all_coordinates self → c ∉ SnakeGame._snake self →
  ∃ rnd, SnakeGame._new_apple rnd self = (Returned (), with_apple (Some c) self).
Proof.
  intros Hall Hfree.
  set (free := SnakeGame._all_coordinates self
               ∖ list_to_set (SnakeGame._snake self)).
  assert (c ∈ elements free) as Hc.
  { apply elem_of_elements, elem_of_difference. split; [done|].
    by rewrite elem_of_list_to_set. }
  destruct (random_choice_complete _ _ Hc) as [rnd Hrnd]. exists rnd.
  unfold SnakeGame._new_apple, SnakeGame._get_random_free_coordinate,
    SnakeGame._get_free_coordinates, SnakeGame.mbind, SnakeGame.attr,
    SnakeGame.lift, SnakeGame.pure.
  fold free. rewrite bool_decide_eq_false_2.
  - by rewrite Hrnd.
  - intros Hnil. rewrite Hnil in Hc. by apply not_elem_of_nil in Hc.
Qed.

(** ** Two scenarios of the specification *)

(** On a 5 by 5 board without overflow one move shifts the body of
    three cells to the right. *)
Example scenario_shift :
  ∃ self,
    SnakeGame.__init__ 5 5 3 false 7 = Returned self
    ∧ (SnakeGame.move 0 self).1 = Returned MoveResult.OK
    ∧ SnakeGame._snake (SnakeGame.move 0 self).2
      = [Coordinate.mk 1 0; Coordinate.mk 2 0; Coordinate.mk 3 0].
Proof. eexists. split; [by vm_compute|]. split; by vm_compute. Qed.

(** The third move of that game runs into the right wall, and the body
    stays where it is. *)
Example scenario_wall :
  ∃ self,
    SnakeGame.__init__ 5 5 3 false 7 = Returned self
    ∧ (SnakeGame.move 0
         (SnakeGame.run [SnakeGame.call_move 0; SnakeGame.call_move 0] self)).1
      = Returned MoveResult.OVERFLOW
    ∧ SnakeGame._snake
        (SnakeGame.move 0
           (SnakeGame.run [SnakeGame.call_move 0; SnakeGame.call_move 0] self)).2
      = [Coordinate.mk 2 0; Coordinate.mk 3 0; Coordinate.mk 4 0].
Proof.
  eexists. split; [vm_compute; reflexivity|].
  split; vm_compute; reflexivity.
Qed.

(** * Further properties of the code *)

(** ** [Direction] and [Coordinate] *)

(** X1: [is_opposed] never raises, is symmetric, and no direction is
    opposed to itself. *)
Theorem is_opposed_symmetric (a b : Direction.t) :
  (∃ r, Direction.is_opposed a b = Returned r)
  ∧ Direction.is_opposed a b = Direction.is_opposed b a
  ∧ Direction.is_opposed a a = Returned false.
Proof.
  unfold Direction.is_opposed. rewrite !get_opposite_lookup. cbn [bind].
  split; [by eexists|]. by destruct a, b.
Qed.

(** X2: a step in a direction followed by a step in the opposite
    direction, as [get_opposite] gives it, comes back to the start, and
    a step never stays in place. *)
Theorem step_and_back (d : Direction.t) (c : Coordinate.t) :
  ∃ d', Direction.get_opposite d = Returned d'
        ∧ neighbour d' (neighbour d c) = c
        ∧ neighbour d c ≠ c.
Proof.
  exists (spec_opposite d). rewrite get_opposite_lookup. split; [done|].
  destruct c as [x y]. split.
  - destruct d; cbn; unfold Coordinate.left, Coordinate.right, Coordinate.up,
      Coordinate.down; cbn; f_equal; lia.
  - destruct d; cbn; unfold Coordinate.left, Coordinate.right, Coordinate.up,
      Coordinate.down; cbn; intros [=]; lia.
Qed.

(** X3: [is_outside] is false exactly on the coordinates with
    [0 <= x < width] and [0 <= y < height]; when an extent is zero or
    negative every coordinate is outside. *)
Theorem is_outside_spec (c : Coordinate.t) (width height : Z) :
  (Coordinate.is_outside c width height = false ↔
   0 ≤ Coordinate.x c < width ∧ 0 ≤ Coordinate.y c < height)
  ∧ (width ≤ 0 ∨ height ≤ 0 → Coordinate.is_outside c width height = true).
Proof.
  split; [apply is_outside_false|]. intros Hz.
  destruct (Coordinate.is_outside c width height) eqn:Hout; [done|].
  apply is_outside_false in Hout. lia.
Qed.

(** X4: [overflows] raises, and then [ZeroDivisionError], exactly when
    the width or the height is zero. *)
Theorem overflows_raises_iff (c : Coordinate.t) (width height : Z) :
  ((∃ e, Coordinate.overflows c width height = Raised e) ↔
   width = 0 ∨ height = 0)
  ∧ (∀ e, Coordinate.overflows c width height = Raised e →
          e = ZeroDivisionError).
Proof.
  unfold Coordinate.overflows, py_mod.
  destruct (decide (width = 0)) as [Hw|Hw]; cbn [bind].
  { split; [|by intros e [= <-]]. split; [by left|by eexists]. }
  destruct (decide (height = 0)) as [Hh|Hh]; cbn [bind].
  { split; [|by intros e [= <-]]. split; [by right|by eexists]. }
  split; [|done]. split; [by intros [e ?]|]. intros [?|?]; done.
Qed.

(** X5: [overflows] leaves a coordinate that is inside the board as it
    is. *)
Theorem overflows_inside_id (c : Coordinate.t) (width height : Z) :
  Coordinate.is_outside c width height = false →
  Coordinate.overflows c width height = Returned c.
Proof.
  intros [Hx Hy]%is_outside_false. unfold Coordinate.overflows, py_mod.
  rewrite !decide_False by lia. cbn [bind].
  rewrite !Z.mod_small by lia. by destruct c.
Qed.

Lemma overflows_inside_id_witness :
  Coordinate.is_outside (Coordinate.mk 4 0) 5 5 = false
  ∧ Coordinate.overflows (Coordinate.mk 4 0) 5 5 = Returned (Coordinate.mk 4 0).
Proof.
  split; [reflexivity|].
  apply (overflows_inside_id (Coordinate.mk 4 0) 5 5). reflexivity.
Defined.

(** X6: wrapping twice is wrapping once. *)
Theorem overflows_idempotent (c c' : Coordinate.t) (width height : Z) :
  Coordinate.overflows c width height = Returned c' →
  Coordinate.overflows c' width height = Returned c'.
Proof.
  unfold Coordinate.overflows, py_mod.
  destruct (decide (width = 0)); [done|].
  destruct (decide (height = 0)); [done|]. cbn [bind]. intros [= <-].
  cbn. by rewrite !Z.mod_mod by done.
Qed.

Lemma overflows_idempotent_witness :
  Coordinate.overflows (Coordinate.mk (-1) 7) 5 5 = Returned (Coordinate.mk 4 2)
  ∧ Coordinate.overflows (Coordinate.mk 4 2) 5 5 = Returned (Coordinate.mk 4 2).
Proof.
  split; [reflexivity|].
  apply (overflows_idempotent (Coordinate.mk (-1) 7) (Coordinate.mk 4 2) 5 5).
  reflexivity.
Defined.

(** X7: one step off an edge of the board wraps to the opposite edge:
    from a coordinate inside, a step that leads outside is wrapped to
    [width - 1] when it goes left, to [0] when it goes right, to
    [height - 1] when it goes up and to [0] when it goes down, the other
    component staying as it is. *)
Theorem step_off_edge_wraps (d : Direction.t) (c : Coordinate.t)
    (width height : Z) :
  Coordinate.is_outside c width height = false →
  Coordinate.is_outside (neighbour d c) width height = true →
  Coordinate.overflows (neighbour d c) width height =
  Returned
    match d with
    | Direction.LEFT => Coordinate.mk (width - 1) (Coordinate.y c)
    | Direction.RIGHT => Coordinate.mk 0 (Coordinate.y c)
    | Direction.UP => Coordinate.mk (Coordinate.x c) (height - 1)
    | Direction.DOWN => Coordinate.mk (Coordinate.x c) 0
    end.
Proof.
  intros [Hx Hy]%is_outside_false Hout.
  assert (¬ (0 ≤ Coordinate.x (neighbour d c) < width
             ∧ 0 ≤ Coordinate.y (neighbour d c) < height)) as Hn.
  { rewrite <- is_outside_false. congruence. }
  unfold Coordinate.overflows, py_mod. rewrite !decide_False by lia.
  cbn [bind]. destruct c as [x y]; cbn in Hx, Hy.
  destruct d; cbn in Hn |- *; f_equal; f_equal.
  - assert (x = 0) as -> by lia.
    replace (0 - 1) with (width - 1 + -1 * width) by lia.
    rewrite Z.mod_add, Z.mod_small; lia.
  - apply Z.mod_small. lia.
  - assert (x = width - 1) as -> by lia.
    replace (width - 1 + 1) with (0 + 1 * width) by lia.
    rewrite Z.mod_add, Z.mod_small; lia.
  - apply Z.mod_small. lia.
  - apply Z.mod_small. lia.
  - assert (y = 0) as -> by lia.
    replace (0 - 1) with (height - 1 + -1 * height) by lia.
    rewrite Z.mod_add, Z.mod_small; lia.
  - apply Z.mod_small. lia.
  - assert (y = height - 1) as -> by lia.
    replace (height - 1 + 1) with (0 + 1 * height) by lia.
    rewrite Z.mod_add, Z.mod_small; lia.
Qed.

Lemma step_off_edge_wraps_witness :
  Coordinate.is_outside (Coordinate.mk 4 0) 5 5 = false
  ∧ Coordinate.is_outside (neighbour Direction.RIGHT (Coordinate.mk 4 0)) 5 5
    = true
  ∧ Coordinate.overflows (neighbour Direction.RIGHT (Coordinate.mk 4 0)) 5 5
    = Returned (Coordinate.mk 0 0).
Proof.
  split; [reflexivity|]. split; [reflexivity|].
  apply (step_off_edge_wraps Direction.RIGHT (Coordinate.mk 4 0) 5 5);
    reflexivity.
Defined.

(** ** Free cells *)

Lemma get_random_free_coordinate_unfold (rnd : nat) (self : SnakeGame.t) :
  SnakeGame._get_random_free_coordinate rnd self =
  (let free_coords :=
     elements (SnakeGame._all_coordinates self
               ∖ list_to_set (SnakeGame._snake self)) in
   if bool_decide (free_coords = []) then Returned None
   else bind (random_choice rnd free_coords) (λ c, Returned (Some c)),
   self).
Proof.
  unfold SnakeGame._get_random_free_coordinate, SnakeGame._get_free_coordinates,
    SnakeGame.mbind, SnakeGame.attr, SnakeGame.lift, SnakeGame.pure.
  cbv zeta. case_bool_decide; [done|].
  by destruct (random_choice rnd _).
Qed.

(** X8: [_get_random_free_coordinate] never raises and writes nothing;
    it returns a cell of [_all_coordinates] that is not on the body, or
    [None] exactly when the body covers all of them. *)
Theorem get_random_free_coordinate_sound (rnd : nat) (self : SnakeGame.t) :
  ∃ r, SnakeGame._get_random_free_coordinate rnd self = (Returned r, self)
       ∧ (∀ c, r = Some c →
               c ∈ SnakeGame._all_coordinates self ∧ c ∉ SnakeGame._snake self)
       ∧ (r = None ↔
          ∀ c, c ∈ SnakeGame._all_coordinates self → c ∈ SnakeGame._snake self).
Proof.
  rewrite get_random_free_coordinate_unfold. cbv zeta.
  set (free := SnakeGame._all_coordinates self
               ∖ list_to_set (SnakeGame._snake self)).
  assert (∀ c, c ∈ elements free ↔
    c ∈ SnakeGame._all_coordinates self ∧ c ∉ SnakeGame._snake self) as Hfree.
  { intros c. unfold free.
    by rewrite elem_of_elements, elem_of_difference, elem_of_list_to_set. }
  case_bool_decide as Hnil.
  - exists None. split; [done|]. split; [done|]. split; [|done].
    intros _ c Hc. destruct (decide (c ∈ SnakeGame._snake self)); [done|].
    assert (c ∈ elements free) as Hin by (by apply Hfree).
    rewrite Hnil in Hin. by apply not_elem_of_nil in Hin.
  - unfold random_choice.
    destruct (lookup_lt_is_Some_2 (elements free)
                (rnd mod length (elements free))%nat) as [c Hc].
    { apply Nat.mod_upper_bound. by destruct (elements free). }
    rewrite Hc. cbn [bind]. exists (Some c). split; [done|].
    apply list_elem_of_lookup_2, Hfree in Hc. split.
    + by intros ? [= <-].
    + split; [done|]. intros Hall. destruct Hc as [Hc1 Hc2].
      exfalso. apply Hc2, Hall, Hc1.
Qed.

(** X9: every cell of [_all_coordinates] that is not on the body is
    returned by [_get_random_free_coordinate] for some draw. *)
Theorem get_random_free_coordinate_complete
    (self : SnakeGame.t) (c : Coordinate.t) :
  c ∈ SnakeGame._all_coordinates self → c ∉ SnakeGame._snake self →
  ∃ rnd, SnakeGame._get_random_free_coordinate rnd self
         = (Returned (Some c), self).
Proof.
  intros Hall Hfree.
  assert (c ∈ elements (SnakeGame._all_coordinates self
                        ∖ list_to_set (SnakeGame._snake self))) as Hc.
  { apply elem_of_elements, elem_of_difference. split; [done|].
    by rewrite elem_of_list_to_set. }
  destruct (random_choice_complete _ _ Hc) as [rnd Hrnd]. exists rnd.
  rewrite get_random_free_coordinate_unfold. cbv zeta.
  rewrite bool_decide_eq_false_2.
  - by rewrite Hrnd.
  - intros Hnil. rewrite Hnil in Hc. by apply not_elem_of_nil in Hc.
Qed.

Lemma get_random_free_coordinate_complete_witness :
  Coordinate.mk 4 4 ∈ SnakeGame._all_coordinates apple_ahead
  ∧ (Coordinate.mk 4 4 ∉ SnakeGame._snake apple_ahead)
  ∧ ∃ rnd, SnakeGame._get_random_free_coordinate rnd apple_ahead
           = (Returned (Some (Coordinate.mk 4 4)), apple_ahead).
Proof.
  assert (Coordinate.mk 4 4 ∈ SnakeGame._all_coordinates apple_ahead) as Hall.
  { apply elem_of_board. simpl. lia. }
  assert (Coordinate.mk 4 4 ∉ SnakeGame._snake apple_ahead) as Hfree.
  { simpl. rewrite !elem_of_cons, elem_of_nil. intros [H|[H|[H|H]]];
      first [discriminate H | exact H]. }
  split; [exact Hall|]. split; [exact Hfree|].
  apply (get_random_free_coordinate_complete apple_ahead (Coordinate.mk 4 4)
           Hall Hfree).
Defined.

(** ** Results and exceptions of [move] *)

Lemma overflows_unfold (c : Coordinate.t) (width height : Z) :
  Coordinate.overflows c width height =
  if decide (width = 0 ∨ height = 0) then Raised ZeroDivisionError
  else Returned (Coordinate.mk (Coordinate.x c mod width)
                   (Coordinate.y c mod height)).
Proof.
  unfold Coordinate.overflows, py_mod.
  destruct (decide (width = 0)), (decide (height = 0)); cbn [bind];
    by (rewrite decide_True by tauto) || by (rewrite decide_False by tauto).
Qed.

Lemma move_checked_returns (rnd : nat) (c : Coordinate.t) (self : SnakeGame.t) :
  SnakeGame._snake self ≠ [] →
  ∃ r, (SnakeGame.move_checked rnd c self).1 = Returned r
       ∧ r ≠ MoveResult.OVERFLOW.
Proof.
  intros Hne. rewrite move_checked_unfold.
  destruct (SnakeGame._snake self) as [|t rest]; [done|].
  repeat case_bool_decide; by eexists.
Qed.

(** X10: [move] raises exactly in two situations: [IndexError] when
    the body is empty, and [ZeroDivisionError] when the body is not
    empty, overflowing is allowed and the width or the height is zero.
    The object is left as it was. *)
Theorem move_raises_iff (rnd : nat) (self : SnakeGame.t) (e : exn) :
  ((SnakeGame.move rnd self).1 = Raised e ↔
   (SnakeGame._snake self = [] ∧ e = IndexError)
   ∨ (SnakeGame._snake self ≠ []
      ∧ SnakeGame._overflows_allowed self = true
      ∧ (SnakeGame._width self = 0 ∨ SnakeGame._height self = 0)
      ∧ e = ZeroDivisionError))
  ∧ ((SnakeGame.move rnd self).1 = Raised e → (SnakeGame.move rnd self).2 = self).
Proof.
  split.
  - rewrite move_unfold.
    destruct (last (SnakeGame._snake self)) as [h|] eqn:Hlast.
    + assert (SnakeGame._snake self ≠ []) as Hne.
      { intros Hnil. by rewrite Hnil in Hlast. }
      cbv zeta. set (c := neighbour _ h).
      destruct (Coordinate.is_outside c _ _) eqn:Hout.
      * destruct (SnakeGame._overflows_allowed self) eqn:Hov.
        -- rewrite overflows_unfold. case_decide as Hz.
           ++ cbn [fst]. split; [intros [= <-]; right; done|].
              intros [[? _]|(_ & _ & _ & ->)]; done.
           ++ destruct (move_checked_returns rnd
                (Coordinate.mk (Coordinate.x c mod SnakeGame._width self)
                   (Coordinate.y c mod SnakeGame._height self)) self Hne)
                as (r & -> & _).
              split; [done|]. intros [[? _]|(_ & _ & ? & _)]; done.
        -- cbn [fst]. split; [done|]. intros [[? _]|(_ & ? & _)]; done.
      * destruct (move_checked_returns rnd c self Hne) as (r & -> & _).
        apply is_outside_false in Hout.
        split; [done|]. intros [[? _]|(_ & _ & ? & _)]; [done|lia].
    + apply last_None in Hlast. cbn [fst].
      split; [intros [= <-]; by left|]. intros [[_ ->]|[? _]]; done.
  - destruct (move_cases rnd self) as [(e' & _ & ->)|[(c & _ & _ & _ & ->)
      |[(c & t & rest & _ & _ & _ & _ & ->)|[(c & t & rest & a & H)
      |(c & t & rest & H)]]]]; try done.
    + destruct H as (_ & _ & _ & _ & _ & _ & ->). done.
    + destruct H as (_ & _ & _ & _ & _ & ->). done.
Qed.


Lemma move_draw_irrelevant (rnd rnd' : nat) (self : SnakeGame.t) :
  (SnakeGame.move rnd self).1 = (SnakeGame.move rnd' self).1
  ∧ ∃ a a', (SnakeGame.move rnd' self).2
            = with_apple a' (with_apple a (SnakeGame.move rnd self).2).
Proof.
  assert (∀ s, ∃ a a', s = with_apple a' (with_apple a s)) as Hid.
  { intros s. exists (SnakeGame._apple s), (SnakeGame._apple s). by destruct s. }
  assert (∀ c, (SnakeGame.move_checked rnd c self).1
               = (SnakeGame.move_checked rnd' c self).1
    ∧ ∃ a a', (SnakeGame.move_checked rnd' c self).2
              = with_apple a' (with_apple a (SnakeGame.move_checked rnd c self).2))
    as Hchk.
  { intros c. rewrite !move_checked_unfold.
    destruct (SnakeGame._snake self) as [|t rest].
    { split; [done|]. apply Hid. }
    repeat case_bool_decide; cbn [fst snd]; (split; [done|]).
    - apply Hid.
    - destruct (new_apple_unfold rnd (with_snake (t :: rest ++ [c]) self))
        as (a & -> & _).
      destruct (new_apple_unfold rnd' (with_snake (t :: rest ++ [c]) self))
        as (a' & -> & _).
      by exists a, a'.
    - apply Hid. }
  rewrite !move_unfold. destruct (last (SnakeGame._snake self)) as [h|].
  - cbv zeta. destruct (Coordinate.is_outside _ _ _); [|apply Hchk].
    destruct (SnakeGame._overflows_allowed self).
    + destruct (Coordinate.overflows _ _ _); [apply Hchk|].
      split; [done|]. apply Hid.
    + split; [done|]. apply Hid.
  - split; [done|]. apply Hid.
Qed.

(** X12: the draw of the generator decides nothing but the apple: what
    [move] returns or raises, the body, the direction and the other
    attributes after the call are the same for every draw. *)
Theorem move_draw_only_apple (rnd rnd' : nat) (self : SnakeGame.t) :
  (SnakeGame.move rnd self).1 = (SnakeGame.move rnd' self).1
  ∧ SnakeGame._snake (SnakeGame.move rnd self).2
    = SnakeGame._snake (SnakeGame.move rnd' self).2
  ∧ SnakeGame._direction (SnakeGame.move rnd self).2
    = SnakeGame._direction (SnakeGame.move rnd' self).2
  ∧ (SnakeGame.score (SnakeGame.move rnd self).2).1
    = (SnakeGame.score (SnakeGame.move rnd' self).2).1.
Proof.
  destruct (move_draw_irrelevant rnd rnd' self) as (Hr & a & a' & Hs).
  split; [done|]. rewrite Hs. done.
Qed.

(** X13: a losing result repeats: when [move] returns [OVERFLOW] or
    [COLISION], the next [move], whatever its draw, returns the same
    result and leaves the same object, as long as no [set_direction]
    comes between. *)
Theorem move_loss_repeats (rnd rnd' : nat) (self self' : SnakeGame.t)
    (r : MoveResult.t) :
  SnakeGame.move rnd self = (Returned r, self') →
  r ≠ MoveResult.OK →
  SnakeGame.move rnd' self' = (Returned r, self').
Proof.
  intros Hmove Hr.
  assert (self' = self) as ->.
  { destruct (move_cases rnd self) as [(e' & _ & H)|[(c & _ & _ & _ & H)
      |[(c & t & rest & _ & _ & _ & _ & H)|[(c & t & rest & a & H)
      |(c & t & rest & H)]]]]; try congruence.
    - destruct H as (_ & _ & _ & _ & _ & _ & H). congruence.
    - destruct H as (_ & _ & _ & _ & _ & H). congruence. }
  destruct (move_draw_irrelevant rnd rnd' self) as (Hfst & _).
  rewrite Hmove in Hfst. cbn [fst] in Hfst.
  destruct (move_cases rnd' self) as [(e' & _ & H)|[(c & _ & _ & _ & H)
    |[(c & t & rest & _ & _ & _ & _ & H)|[(c & t & rest & a & H)
    |(c & t & rest & H)]]]].
  - rewrite H in Hfst. done.
  - rewrite H in Hfst |- *. cbn in Hfst. congruence.
  - rewrite H in Hfst |- *. cbn in Hfst. congruence.
  - destruct H as (_ & _ & _ & _ & _ & _ & H). rewrite H in Hfst.
    cbn in Hfst. congruence.
  - destruct H as (_ & _ & _ & _ & _ & H). rewrite H in Hfst.
    cbn in Hfst. congruence.
Qed.

Lemma move_loss_repeats_witness :
  SnakeGame.move 0 turned_back = (Returned MoveResult.COLISION, turned_back)
  ∧ MoveResult.COLISION ≠ MoveResult.OK
  ∧ SnakeGame.move 5 turned_back = (Returned MoveResult.COLISION, turned_back).
Proof.
  assert (SnakeGame.move 0 turned_back
          = (Returned MoveResult.COLISION, turned_back)) as Hmove
    by (vm_compute; reflexivity).
  assert (MoveResult.COLISION ≠ MoveResult.OK) as Hr by discriminate.
  split; [exact Hmove|]. split; [exact Hr|].
  apply (move_loss_repeats 0 5 turned_back turned_back MoveResult.COLISION
           Hmove Hr).
Defined.

(** ** What no call changes, and what only grows *)

Lemma move_after (rnd : nat) (self : SnakeGame.t) :
  ∃ l a,
    (SnakeGame.move rnd self).2 = with_apple a (with_snake l self)
    ∧ (length (SnakeGame._snake self) ≤ length l)%nat
    ∧ (a = SnakeGame._apple self ∨ fresh_apple self l a)
    ∧ (SnakeGame._apple self = None →
       a = None ∧ length l = length (SnakeGame._snake self)).
Proof.
  assert (self = with_apple (SnakeGame._apple self)
                   (with_snake (SnakeGame._snake self) self)) as Hid
    by (by destruct self).
  destruct (move_cases rnd self) as [(e' & _ & ->)|[(c & _ & _ & _ & ->)
    |[(c & t & rest & _ & _ & _ & _ & ->)|[(c & t & rest & a & H)
    |(c & t & rest & H)]]]]; cbn [snd].
  1-3: exists (SnakeGame._snake self), (SnakeGame._apple self);
       split; [exact Hid|]; split; [lia|]; split; [by left|]; done.
  - destruct H as (_ & Hs & _ & _ & Ha & Hfresh & ->). cbn [snd].
    exists (t :: rest ++ [c]), a. split; [done|]. rewrite Hs.
    split; [cbn; rewrite length_app; cbn; lia|]. split; [by right|].
    intros Hnone. congruence.
  - destruct H as (_ & Hs & _ & _ & Ha & ->). cbn [snd].
    exists (rest ++ [c]), (SnakeGame._apple self). split; [by destruct self|].
    rewrite Hs. split; [cbn; rewrite length_app; cbn; lia|].
    split; [by left|]. intros Hnone. split; [exact Hnone|].
    cbn; rewrite length_app; cbn; lia.
Qed.

Lemma perform_after (self : SnakeGame.t) (c : SnakeGame.call) :
  ∃ l a d,
    SnakeGame.perform self c
    = (SnakeGame.set__direction d (with_apple a (with_snake l self))).2
    ∧ (length (SnakeGame._snake self) ≤ length l)%nat
    ∧ (SnakeGame._apple self = None →
       a = None ∧ length l = length (SnakeGame._snake self)).
Proof.
  destruct c as [d|rnd]; cbn [SnakeGame.perform].
  - rewrite set_direction_unfold. cbn [snd].
    exists (SnakeGame._snake self), (SnakeGame._apple self).
    case_bool_decide.
    + exists (SnakeGame._direction self). split; [by destruct self|]. done.
    + exists d. split; [by destruct self|]. done.
  - destruct (move_after rnd self) as (l & a & -> & Hlen & _ & Hnone).
    exists l, a, (SnakeGame._direction self). split; [by destruct self|]. done.
Qed.

(** X14: no sequence of calls changes the width, the height, the start
    length, the overflow setting or the set of all coordinates, and
    [move] never changes the direction. *)
Theorem calls_keep_configuration
    (calls : list SnakeGame.call) (rnd : nat) (self : SnakeGame.t) :
  SnakeGame._width (SnakeGame.run calls self) = SnakeGame._width self
  ∧ SnakeGame._height (SnakeGame.run calls self) = SnakeGame._height self
  ∧ SnakeGame._start_len (SnakeGame.run calls self) = SnakeGame._start_len self
  ∧ SnakeGame._overflows_allowed (SnakeGame.run calls self)
    = SnakeGame._overflows_allowed self
  ∧ SnakeGame._all_coordinates (SnakeGame.run calls self)
    = SnakeGame._all_coordinates self
  ∧ SnakeGame._direction (SnakeGame.move rnd self).2 = SnakeGame._direction self.
Proof.
  split; [|split; [|split; [|split; [|split]]]].
  1-5: apply (run_invariant (λ g, _ g = _ self)); [|done];
       intros g c <-; destruct (perform_after g c) as (l & a & d & -> & _);
       done.
  destruct (move_after rnd self) as (l & a & -> & _). done.
Qed.

(** X15: the score never decreases, whatever the calls: it is the
    length of the body minus the start length, and no call shortens the
    body. *)
Theorem score_never_decreases
    (calls : list SnakeGame.call) (self : SnakeGame.t) :
  ∃ s s',
    (SnakeGame.score self).1 = Returned s
    ∧ (SnakeGame.score (SnakeGame.run calls self)).1 = Returned s'
    ∧ s ≤ s'
    ∧ (length (SnakeGame._snake self)
       ≤ length (SnakeGame._snake (SnakeGame.run calls self)))%nat.
Proof.
  assert (∀ g, (SnakeGame.score g).1 =
    Returned (Z.of_nat (length (SnakeGame._snake g)) - SnakeGame._start_len g))
    as Hscore by done.
  assert (SnakeGame._start_len (SnakeGame.run calls self)
          = SnakeGame._start_len self
          ∧ (length (SnakeGame._snake self)
             ≤ length (SnakeGame._snake (SnakeGame.run calls self)))%nat)
    as [Hsl Hlen].
  { apply (run_invariant (λ g, SnakeGame._start_len g = SnakeGame._start_len self
      ∧ (length (SnakeGame._snake self) ≤ length (SnakeGame._snake g))%nat));
      [|done].
    intros g c [Hg1 Hg2]. destruct (perform_after g c) as (l & a & d & -> & Hl & _).
    cbn. split; [done|lia]. }
  eexists _, _. rewrite !Hscore, Hsl. split; [done|]. split; [done|]. lia.
Qed.



(** X17: the score of a new game is 0 when the start length is not
    negative; a negative start length gives an empty body and the score
    [- start_len]. *)
Theorem initial_score (width height start_len : Z) (ov : bool) (rnd : nat) :
  ∃ self,
    SnakeGame.__init__ width height start_len ov rnd = Returned self
    ∧ length (SnakeGame._snake self) = Z.to_nat start_len
    ∧ (SnakeGame.score self).1
      = Returned (if decide (0 ≤ start_len) then 0 else - start_len).
Proof.
  destruct (init_unfold width height start_len ov rnd) as (a & -> & _).
  eexists. split; [done|].
  assert (length (first_snake start_len) = Z.to_nat start_len) as Hlen.
  { unfold first_snake, range. by rewrite length_fmap, length_seqZ. }
  split; [done|].
  unfold SnakeGame.score, SnakeGame.mbind, SnakeGame.attr, SnakeGame.pure.
  cbn. f_equal. rewrite Hlen. case_decide; lia.
Qed.

(** ** The objects of a well-configured game *)

Lemma candidate_adjacent (self : SnakeGame.t) (c : Coordinate.t) :
  (SnakeGame.candidate self).1 = Returned c →
  ∃ h, last (SnakeGame._snake self) = Some h
       ∧ adjacent (SnakeGame._width self) (SnakeGame._height self) h c.
Proof.
  rewrite candidate_unfold. cbn [fst].
  destruct (last (SnakeGame._snake self)) as [h|]; [|done]. cbv zeta.
  intros Hc. exists h. split; [done|]. exists (SnakeGame._direction self).
  destruct (_ && _); [by right|]. left. congruence.
Qed.

Lemma contiguous_snoc (width height : Z) (l : list Coordinate.t)
    (h c : Coordinate.t) :
  contiguous width height l → last l = Some h → adjacent width height h c →
  contiguous width height (l ++ [c]).
Proof.
  intros Hl Hlast Hadj i a b Ha Hb.
  destruct (decide (S i < length l)%nat) as [Hlt|Hge].
  - rewrite lookup_app_l in Ha, Hb by lia. by eapply Hl.
  - assert (S i = length l) as Hi.
    { apply lookup_lt_Some in Hb. rewrite length_app in Hb. cbn in Hb. lia. }
    rewrite lookup_app_r in Hb by lia. rewrite Hi, Nat.sub_diag in Hb.
    injection Hb as <-. rewrite lookup_app_l in Ha by lia.
    rewrite last_lookup, <- Hi in Hlast. cbn in Hlast. congruence.
Qed.

Lemma contiguous_tail (width height : Z) (t : Coordinate.t)
    (l : list Coordinate.t) :
  contiguous width height (t :: l) → contiguous width height l.
Proof. intros Hl i a b Ha Hb. by apply (Hl (S i) a b). Qed.

Lemma well_formed_init (width height start_len : Z) (ov : bool) (rnd : nat) :
  1 ≤ width → 1 ≤ height → 1 ≤ start_len ≤ width →
  ∃ self, SnakeGame.__init__ width height start_len ov rnd = Returned self
          ∧ well_formed width height self.
Proof.
  intros Hw Hh Hsl.
  destruct (init_unfold width height start_len ov rnd) as (a & -> & Ha).
  eexists. split; [done|]. unfold well_formed. cbn.
  split; [done|]. split; [done|]. split; [done|]. split; [|split; [|split; [|split]]].
  - intros Hnil. assert (Coordinate.mk 0 0 ∈ first_snake start_len) as Hin.
    { apply elem_of_first_snake. cbn. lia. }
    rewrite Hnil in Hin. by apply not_elem_of_nil in Hin.
  - apply Forall_forall. intros c [Hx Hy]%elem_of_first_snake.
    apply is_outside_false. cbn. lia.
  - split; cbn; [apply NoDup_first_snake|]. intros x ->. by destruct Ha.
  - intros i p q Hp Hq. unfold first_snake, range in Hp, Hq.
    rewrite list_lookup_fmap in Hp, Hq.
    destruct (seqZ 0 start_len !! i) as [zi|] eqn:Hi; [|done].
    destruct (seqZ 0 start_len !! S i) as [zj|] eqn:Hj; [|done].
    apply lookup_seqZ in Hi as [-> _]. apply lookup_seqZ in Hj as [-> _].
    injection Hp as <-. injection Hq as <-.
    exists Direction.RIGHT. left. cbn. unfold Coordinate.right. cbn.
    f_equal. lia.
  - destruct a; [by destruct Ha|done].
Qed.

Lemma well_formed_move (width height : Z) (rnd : nat) (self : SnakeGame.t) :
  1 ≤ width → 1 ≤ height →
  well_formed width height self →
  well_formed width height (SnakeGame.move rnd self).2.
Proof.
  intros Hw Hh (Hsw & Hsh & Hall & Hne & Hon & Hap & Hcont & Happle).
  pose proof (apart_move rnd self Hap) as Hap'.
  assert (1 ≤ SnakeGame._width self) as Hw' by lia.
  assert (1 ≤ SnakeGame._height self) as Hh' by lia.
  pose proof (on_board_move rnd self Hw' Hh' Hon) as Hon'.
  assert (∀ c, let_through self c → c ∈ board width height) as Hin.
  { intros c Hc. apply elem_of_board. rewrite <- is_outside_false.
    rewrite <- Hsw, <- Hsh. destruct Hc as [?|[c0 ?]]; [done|].
    by eapply overflows_inside. }
  destruct (move_cases rnd self) as [(e' & _ & H)|[(c & _ & _ & _ & H)
    |[(c & t & rest & _ & _ & _ & _ & H)|[(c & t & rest & a & H)
    |(c & t & rest & H)]]]].
  1-3: rewrite H; cbn [snd]; unfold well_formed; tauto.
  - destruct H as (Hc & Hs & Hfree & Hlet & Ha & Hfresh & H).
    rewrite H in Hap', Hon' |- *. cbn [snd].
    destruct (candidate_adjacent self c Hc) as (hd & Hlast & Hadj).
    rewrite Hsw, Hsh in Hadj. rewrite Hs in Hlast.
    unfold well_formed. cbn. split_and!; try done.
    + change (t :: rest ++ [c]) with ((t :: rest) ++ [c]).
      eapply contiguous_snoc; [|done..]. by rewrite <- Hs.
    + unfold fresh_apple in Hfresh. rewrite Hall in Hfresh.
      destruct a; [by destruct Hfresh|done].
  - destruct H as (Hc & Hs & Hfree & Hlet & Ha & H).
    rewrite H in Hap', Hon' |- *. cbn [snd].
    destruct (candidate_adjacent self c Hc) as (hd & Hlast & Hadj).
    rewrite Hsw, Hsh in Hadj. rewrite Hs in Hlast, Hcont.
    unfold well_formed. cbn. split_and!; try done.
    + by destruct rest.
    + destruct rest as [|t' rest'].
      * cbn. intros i p q Hp Hq. by destruct i.
      * apply (contiguous_snoc _ _ _ hd); [|done..].
        by eapply contiguous_tail.
    + destruct (SnakeGame._apple self) as [x|]; [done|].
      rewrite Hs in Happle. intros x Hx.
      rewrite elem_of_app, list_elem_of_singleton.
      pose proof (Happle x Hx) as Hxin.
      apply elem_of_cons in Hxin as [->|Hxin]; [|by left].
      right. destruct Hfree as [->|Hfree]; [done|].
      exfalso. apply Hfree, Happle, Hin, Hlet.
Qed.

Lemma well_formed_run (width height start_len : Z) (ov : bool) (rnd : nat) :
  1 ≤ width → 1 ≤ height → 1 ≤ start_len ≤ width →
  ∃ self, SnakeGame.__init__ width height start_len ov rnd = Returned self
          ∧ ∀ calls, well_formed width height (SnakeGame.run calls self).
Proof.
  intros Hw Hh Hsl.
  destruct (well_formed_init width height start_len ov rnd Hw Hh Hsl)
    as (self & Hinit & Hwf).
  exists self. split; [done|]. intros calls.
  apply (run_invariant (well_formed width height)); [|done].
  intros g [d|n] Hg; cbn [SnakeGame.perform]; [|by apply well_formed_move].
  rewrite set_direction_unfold. cbn [snd]. by case_bool_decide.
Qed.

Lemma length_board_list (width height : Z) :
  length (flat_map (λ x, (λ y, Coordinate.mk x y) <$> range height)
            (range width))
  = (Z.to_nat width * Z.to_nat height)%nat.
Proof.
  rewrite (flat_map_constant_length (c := Z.to_nat height)).
  - unfold range. by rewrite length_seqZ.
  - intros x _. unfold range. by rewrite length_fmap, length_seqZ.
Qed.

(** X18: in a game built with [width >= 1], [height >= 1] and
    [1 <= start_len <= width], after any calls, every cell of the body
    and the apple, when there is one, lie on the board. *)
Theorem body_and_apple_on_board
    (width height start_len : Z) (ov : bool) (rnd : nat)
    (calls : list SnakeGame.call) :
  1 ≤ width → 1 ≤ height → 1 ≤ start_len ≤ width →
  ∃ self,
    SnakeGame.__init__ width height start_len ov rnd = Returned self
    ∧ (∀ c, c ∈ SnakeGame._snake (SnakeGame.run calls self) →
            0 ≤ Coordinate.x c < width ∧ 0 ≤ Coordinate.y c < height)
    ∧ (∀ a, SnakeGame._apple (SnakeGame.run calls self) = Some a →
            0 ≤ Coordinate.x a < width ∧ 0 ≤ Coordinate.y a < height).
Proof.
  intros Hw Hh Hsl.
  destruct (well_formed_run width height start_len ov rnd Hw Hh Hsl)
    as (self & Hinit & Hwf).
  exists self. split; [done|].
  destruct (Hwf calls) as (Hsw & Hsh & _ & _ & Hon & _ & _ & Happle).
  split.
  - intros c Hc. unfold on_board in Hon. rewrite Forall_forall in Hon.
    rewrite <- Hsw, <- Hsh. by apply is_outside_false, Hon.
  - intros a Ha. rewrite Ha in Happle. by apply elem_of_board.
Qed.

Lemma body_and_apple_on_board_witness :
  ∃ self,
    SnakeGame.__init__ 5 5 3 true 4 = Returned self
    ∧ (∀ c, c ∈ SnakeGame._snake (SnakeGame.run
              [SnakeGame.call_move 1; SnakeGame.call_move 2] self) →
            0 ≤ Coordinate.x c < 5 ∧ 0 ≤ Coordinate.y c < 5)
    ∧ (∀ a, SnakeGame._apple (SnakeGame.run
              [SnakeGame.call_move 1; SnakeGame.call_move 2] self) = Some a →
            0 ≤ Coordinate.x a < 5 ∧ 0 ≤ Coordinate.y a < 5).
Proof.
  apply (body_and_apple_on_board 5 5 3 true 4
           [SnakeGame.call_move 1; SnakeGame.call_move 2]); lia.
Defined.

(** X19: in such a game the body never has more cells than the board,
    so that the score is at most [width * height - start_len]. *)
Theorem body_fits_board
    (width height start_len : Z) (ov : bool) (rnd : nat)
    (calls : list SnakeGame.call) :
  1 ≤ width → 1 ≤ height → 1 ≤ start_len ≤ width →
  ∃ self s,
    SnakeGame.__init__ width height start_len ov rnd = Returned self
    ∧ Z.of_nat (length (SnakeGame._snake (SnakeGame.run calls self)))
      ≤ width * height
    ∧ (SnakeGame.score (SnakeGame.run calls self)).1 = Returned s
    ∧ 0 ≤ s ≤ width * height - start_len.
Proof.
  intros Hw Hh Hsl.
  destruct (well_formed_run width height start_len ov rnd Hw Hh Hsl)
    as (self & Hinit & Hwf).
  destruct (Hwf calls) as (Hsw & Hsh & _ & _ & Hon & [Hnd _] & _ & _).
  set (g := SnakeGame.run calls self) in *.
  assert (Z.of_nat (length (SnakeGame._snake g)) ≤ width * height) as Hlen.
  { assert (SnakeGame._snake g ⊆+
      flat_map (λ x, (λ y, Coordinate.mk x y) <$> range height) (range width))
      as Hsub.
    { apply NoDup_submseteq; [done|]. intros c Hc.
      unfold on_board in Hon. rewrite Forall_forall in Hon.
      specialize (Hon c Hc). rewrite Hsw, Hsh in Hon.
      apply is_outside_false, elem_of_board in Hon.
      unfold board in Hon. by rewrite elem_of_list_to_set in Hon. }
    apply submseteq_length in Hsub. rewrite length_board_list in Hsub. nia. }
  assert (SnakeGame._start_len g = start_len
          ∧ (Z.to_nat start_len ≤ length (SnakeGame._snake g))%nat) as [Hg Hmin].
  { destruct (init_unfold width height start_len ov rnd) as (a & Hi & _).
    rewrite Hi in Hinit. injection Hinit as <-. unfold g.
    apply (run_invariant (λ g, SnakeGame._start_len g = start_len
      ∧ (Z.to_nat start_len ≤ length (SnakeGame._snake g))%nat)).
    - intros g' c [Hg1 Hg2].
      destruct (perform_after g' c) as (l & a' & d & -> & Hl & _).
      cbn. split; [done|lia].
    - cbn. split; [done|]. unfold first_snake, range.
      by rewrite length_fmap, length_seqZ. }
  exists self, (Z.of_nat (length (SnakeGame._snake g)) - start_len).
  split; [done|]. split; [done|]. split; [|lia].
  assert (∀ g, (SnakeGame.score g).1 =
    Returned (Z.of_nat (length (SnakeGame._snake g)) - SnakeGame._start_len g))
    as Hscore by done.
  rewrite Hscore. fold g. by rewrite Hg.
Qed.

Lemma body_fits_board_witness :
  ∃ self s,
    SnakeGame.__init__ 5 5 3 true 4 = Returned self
    ∧ Z.of_nat (length (SnakeGame._snake (SnakeGame.run
        [SnakeGame.call_move 1; SnakeGame.call_move 2] self))) ≤ 5 * 5
    ∧ (SnakeGame.score (SnakeGame.run
        [SnakeGame.call_move 1; SnakeGame.call_move 2] self)).1 = Returned s
    ∧ 0 ≤ s ≤ 5 * 5 - 3.
Proof.
  apply (body_fits_board 5 5 3 true 4
           [SnakeGame.call_move 1; SnakeGame.call_move 2]); lia.
Defined.

(** X20: in such a game, after any calls, there is no apple exactly
    when the body covers the whole board. *)
Theorem no_apple_iff_board_full
    (width height start_len : Z) (ov : bool) (rnd : nat)
    (calls : list SnakeGame.call) :
  1 ≤ width → 1 ≤ height → 1 ≤ start_len ≤ width →
  ∃ self,
    SnakeGame.__init__ width height start_len ov rnd = Returned self
    ∧ (SnakeGame._apple (SnakeGame.run calls self) = None ↔
       ∀ c, 0 ≤ Coordinate.x c < width → 0 ≤ Coordinate.y c < height →
            c ∈ SnakeGame._snake (SnakeGame.run calls self)).
Proof.
  intros Hw Hh Hsl.
  destruct (well_formed_run width height start_len ov rnd Hw Hh Hsl)
    as (self & Hinit & Hwf).
  exists self. split; [done|].
  destruct (Hwf calls) as (_ & _ & _ & _ & _ & [_ Hap] & _ & Happle).
  destruct (SnakeGame._apple (SnakeGame.run calls self)) as [a|].
  - split; [done|]. intros Hfull. exfalso. apply (Hap a); [done|].
    apply elem_of_board in Happle. apply Hfull; tauto.
  - split; [|done]. intros _ c Hx Hy. apply Happle, elem_of_board. tauto.
Qed.

Lemma no_apple_iff_board_full_witness :
  ∃ self,
    SnakeGame.__init__ 2 2 2 true 0 = Returned self
    ∧ (SnakeGame._apple (SnakeGame.run [SnakeGame.call_move 1] self) = None ↔
       ∀ c, 0 ≤ Coordinate.x c < 2 → 0 ≤ Coordinate.y c < 2 →
            c ∈ SnakeGame._snake (SnakeGame.run [SnakeGame.call_move 1] self)).
Proof.
  apply (no_apple_iff_board_full 2 2 2 true 0 [SnakeGame.call_move 1]); lia.
Defined.

(** X21: in such a game, after any calls, each cell of the body is one
    step from the cell before it, directly or across an edge of the
    board. *)
Theorem body_contiguous
    (width height start_len : Z) (ov : bool) (rnd : nat)
    (calls : list SnakeGame.call) :
  1 ≤ width → 1 ≤ height → 1 ≤ start_len ≤ width →
  ∃ self,
    SnakeGame.__init__ width height start_len ov rnd = Returned self
    ∧ ∀ i a b,
        SnakeGame._snake (SnakeGame.run calls self) !! i = Some a →
        SnakeGame._snake (SnakeGame.run calls self) !! S i = Some b →
        ∃ d, b = neighbour d a
             ∨ Coordinate.overflows (neighbour d a) width height = Returned b.
Proof.
  intros Hw Hh Hsl.
  destruct (well_formed_run width height start_len ov rnd Hw Hh Hsl)
    as (self & Hinit & Hwf).
  exists self. split; [done|].
  destruct (Hwf calls) as (_ & _ & _ & _ & _ & _ & Hcont & _). exact Hcont.
Qed.

Lemma body_contiguous_witness :
  ∃ self,
    SnakeGame.__init__ 5 5 3 true 4 = Returned self
    ∧ ∀ i a b,
        SnakeGame._snake (SnakeGame.run
          [SnakeGame.call_move 1; SnakeGame.call_move 2] self) !! i = Some a →
        SnakeGame._snake (SnakeGame.run
          [SnakeGame.call_move 1; SnakeGame.call_move 2] self) !! S i = Some b →
        ∃ d, b = neighbour d a
             ∨ Coordinate.overflows (neighbour d a) 5 5 = Returned b.
Proof.
  apply (body_contiguous 5 5 3 true 4
           [SnakeGame.call_move 1; SnakeGame.call_move 2]); lia.
Defined.

(** ** Calls that never fail *)

Lemma candidate_raised (self : SnakeGame.t) (e : exn) :
  (SnakeGame.candidate self).1 = Raised e →
  SnakeGame._snake self = []
  ∨ SnakeGame._width self = 0 ∨ SnakeGame._height self = 0.
Proof.
  rewrite candidate_unfold. cbn [fst].
  destruct (last (SnakeGame._snake self)) eqn:Hlast.
  - cbv zeta. destruct (_ && _); [|done]. rewrite overflows_unfold.
    case_decide; [tauto|done].
  - apply last_None in Hlast. by left.
Qed.

(** X22: in a game built with a width and a height other than 0 and a
    start length of at least 1, no [move], after any calls, raises. *)
Theorem move_never_raises
    (width height start_len : Z) (ov : bool) (rnd rnd' : nat)
    (calls : list SnakeGame.call) :
  width ≠ 0 → height ≠ 0 → 1 ≤ start_len →
  ∃ self r,
    SnakeGame.__init__ width height start_len ov rnd = Returned self
    ∧ (SnakeGame.move rnd' (SnakeGame.run calls self)).1 = Returned r.
Proof.
  intros Hw Hh Hsl.
  destruct (init_unfold width height start_len ov rnd) as (a & Hinit & _).
  rewrite Hinit.
  set (s := SnakeGame.mk width height start_len ov Direction.RIGHT
              (first_snake start_len) (board width height) a).
  exists s.
  assert (SnakeGame._width (SnakeGame.run calls s) ≠ 0
          ∧ SnakeGame._height (SnakeGame.run calls s) ≠ 0
          ∧ SnakeGame._snake (SnakeGame.run calls s) ≠ []) as (Hgw & Hgh & Hgs).
  { apply (run_invariant (λ g, SnakeGame._width g ≠ 0
      ∧ SnakeGame._height g ≠ 0 ∧ SnakeGame._snake g ≠ [])).
    - intros g c (Hg1 & Hg2 & Hg3).
      destruct (perform_after g c) as (l & a' & d & -> & Hl & _). cbn.
      split; [done|]. split; [done|]. intros ->.
      destruct (SnakeGame._snake g); [done|]. cbn in Hl. lia.
    - cbn. split; [done|]. split; [done|]. intros Hnil.
      assert (Coordinate.mk 0 0 ∈ first_snake start_len) as Hin.
      { apply elem_of_first_snake. cbn. lia. }
      rewrite Hnil in Hin. by apply not_elem_of_nil in Hin. }
  destruct (move_cases rnd' (SnakeGame.run calls s))
    as [(e' & He & H)|[(c & _ & _ & _ & H)
    |[(c & t & rest & _ & _ & _ & _ & H)|[(c & t & rest & a' & H)
    |(c & t & rest & H)]]]].
  - apply candidate_raised in He. tauto.
  - rewrite H. by eexists.
  - rewrite H. by eexists.
  - destruct H as (_ & _ & _ & _ & _ & _ & H). rewrite H. by eexists.
  - destruct H as (_ & _ & _ & _ & _ & H). rewrite H. by eexists.
Qed.

Lemma move_never_raises_witness :
  ∃ self r,
    SnakeGame.__init__ 5 5 3 true 4 = Returned self
    ∧ (SnakeGame.move 9 (SnakeGame.run
         [SnakeGame.call_move 1; SnakeGame.call_set_direction Direction.UP]
         self)).1 = Returned r.
Proof.
  apply (move_never_raises 5 5 3 true 4 9
           [SnakeGame.call_move 1; SnakeGame.call_set_direction Direction.UP]);
    lia.
Defined.

Lemma move_OVERFLOW_not_allowed (rnd : nat) (self : SnakeGame.t) :
  (SnakeGame.move rnd self).1 = Returned MoveResult.OVERFLOW →
  SnakeGame._overflows_allowed self = false.
Proof.
  destruct (move_cases rnd self) as [(e' & _ & ->)|[(c & _ & _ & Hov & ->)
    |[(c & t & rest & _ & _ & _ & _ & ->)|[(c & t & rest & a & H)
    |(c & t & rest & H)]]]]; try done.
  - destruct H as (_ & _ & _ & _ & _ & _ & ->). done.
  - destruct H as (_ & _ & _ & _ & _ & ->). done.
Qed.

(** X23: the game of [run_game] is built with the default
    [overflows_allowed=True]; no [move] of it, after any calls, returns
    [OVERFLOW], so that [is_lost], which [run_game] tests to stop, holds
    of every result of such a move other than [OK]. *)
Theorem run_game_stops_on_every_loss
    (width height : Z) (rnd rnd' : nat) (calls : list SnakeGame.call) :
  ∃ self,
    run_game_init width height rnd = Returned self
    ∧ (SnakeGame.move rnd' (SnakeGame.run calls self)).1
      ≠ Returned MoveResult.OVERFLOW
    ∧ ∀ r, (SnakeGame.move rnd' (SnakeGame.run calls self)).1 = Returned r →
           (MoveResult.is_lost r = true ↔ r ≠ MoveResult.OK).
Proof.
  unfold run_game_init.
  destruct (init_unfold width height 3 true rnd) as (a & -> & _).
  eexists. split; [done|].
  match goal with |- context [SnakeGame.run calls ?s] =>
    assert (SnakeGame._overflows_allowed (SnakeGame.run calls s) = true) as Hov
  end.
  { apply (run_invariant (λ g, SnakeGame._overflows_allowed g = true)); [|done].
    intros g c Hg. by destruct (perform_after g c) as (l & a' & d & -> & _). }
  assert (∀ r, MoveResult.is_lost r = true ↔ r = MoveResult.COLISION) as Hlost.
  { intros r. unfold MoveResult.is_lost.
    rewrite bool_decide_eq_true, !elem_of_cons, elem_of_nil. tauto. }
  split.
  - intros Hr%move_OVERFLOW_not_allowed. congruence.
  - intros r Hr. rewrite Hlost. destruct r; [done| |done].
    apply move_OVERFLOW_not_allowed in Hr. congruence.
Qed.

(** ** Turning *)

(** X24: two turns make a reversal: when [d] is neither the current
    direction nor its opposite [o], [set_direction d] followed by
    [set_direction o] leaves the snake heading in the direction [o]
    that a single call refuses. *)
Theorem two_turns_reverse (d o : Direction.t) (self : SnakeGame.t) :
  Direction.get_opposite (SnakeGame._direction self) = Returned o →
  d ≠ SnakeGame._direction self → d ≠ o →
  SnakeGame._direction (SnakeGame.run [SnakeGame.call_set_direction o] self)
  = SnakeGame._direction self
  ∧ SnakeGame._direction
      (SnakeGame.run [SnakeGame.call_set_direction d;
                      SnakeGame.call_set_direction o] self) = o.
Proof.
  rewrite get_opposite_lookup. intros [= <-] Hd Ho.
  unfold SnakeGame.run. cbn [foldl SnakeGame.perform].
  rewrite !set_direction_unfold. cbn [snd].
  rewrite (bool_decide_eq_true_2 (spec_opposite _ = spec_opposite _)) by done.
  split; [done|].
  rewrite (bool_decide_eq_false_2 (spec_opposite _ = d)) by done. cbn.
  rewrite bool_decide_eq_false_2; [done|].
  destruct d, (SnakeGame._direction self); done.
Qed.

Lemma two_turns_reverse_witness :
  Direction.get_opposite (SnakeGame._direction apple_ahead)
  = Returned Direction.LEFT
  ∧ Direction.UP ≠ SnakeGame._direction apple_ahead
  ∧ Direction.UP ≠ Direction.LEFT
  ∧ SnakeGame._direction
      (SnakeGame.run [SnakeGame.call_set_direction Direction.LEFT] apple_ahead)
    = SnakeGame._direction apple_ahead
  ∧ SnakeGame._direction
      (SnakeGame.run [SnakeGame.call_set_direction Direction.UP;
                      SnakeGame.call_set_direction Direction.LEFT] apple_ahead)
    = Direction.LEFT.
Proof.
  assert (Direction.get_opposite (SnakeGame._direction apple_ahead)
          = Returned Direction.LEFT) as Ho by (vm_compute; reflexivity).
  assert (Direction.UP ≠ SnakeGame._direction apple_ahead) as Hd
    by (simpl; discriminate).
  assert (Direction.UP ≠ Direction.LEFT) as Hl by discriminate.
  split; [exact Ho|]. split; [exact Hd|]. split; [exact Hl|].
  apply (two_turns_reverse Direction.UP Direction.LEFT apple_ahead Ho Hd Hl).
Defined.

(** X25: [set_direction d] twice in a row is [set_direction d] once. *)
Theorem set_direction_idempotent (d : Direction.t) (self : SnakeGame.t) :
  SnakeGame.set_direction d (SnakeGame.set_direction d self).2
  = SnakeGame.set_direction d self.
Proof.
  rewrite (set_direction_unfold d self). cbn [snd].
  destruct (decide (spec_opposite (SnakeGame._direction self) = d)) as [H|H].
  - rewrite (bool_decide_eq_true_2 _ H), set_direction_unfold.
    by rewrite (bool_decide_eq_true_2 _ H).
  - rewrite (bool_decide_eq_false_2 _ H), set_direction_unfold. cbn.
    rewrite bool_decide_eq_false_2; [done|]. by destruct d.
Qed.

(** ** Edge cases of the construction and of the tail *)

(** X26: a new game has no apple exactly when the width or the height
    is zero or negative, or when the height is 1 and the width is at
    most the start length: the first body then covers the board. *)
Theorem initial_apple_None_iff
    (width height start_len : Z) (ov : bool) (rnd : nat) :
  ∃ self,
    SnakeGame.__init__ width height start_len ov rnd = Returned self
    ∧ (SnakeGame._apple self = None ↔
       width ≤ 0 ∨ height ≤ 0 ∨ (height = 1 ∧ width ≤ start_len)).
Proof.
  destruct (init_unfold width height start_len ov rnd) as (a & -> & Ha).
  eexists. split; [done|]. cbn. destruct a as [a|].
  - split; [done|]. destruct Ha as [Hb%elem_of_board Hs].
    rewrite elem_of_first_snake in Hs. lia.
  - split; [|done]. intros _.
    destruct (decide (1 ≤ width ∧ 1 ≤ height)) as [[Hw Hh]|]; [|lia].
    assert (Coordinate.mk 0 (height - 1) ∈ first_snake start_len) as H1.
    { apply Ha, elem_of_board. cbn. lia. }
    assert (Coordinate.mk (width - 1) 0 ∈ first_snake start_len) as H2.
    { apply Ha, elem_of_board. cbn. lia. }
    apply elem_of_first_snake in H1, H2. cbn in H1, H2. lia.
Qed.

(** X27: the snake may follow its own tail: when the candidate is the
    cell of the tail, inside the board, and the apple is not on it,
    [move] returns [OK] and the tail cell becomes the head while the
    rest of the body stays. *)
Theorem move_into_tail (rnd : nat) (self : SnakeGame.t)
    (t : Coordinate.t) (rest : list Coordinate.t) :
  SnakeGame._snake self = t :: rest →
  (SnakeGame.candidate self).1 = Returned t →
  Coordinate.is_outside t (SnakeGame._width self) (SnakeGame._height self)
  = false →
  SnakeGame._apple self ≠ Some t →
  SnakeGame.move rnd self
  = (Returned MoveResult.OK, with_snake (rest ++ [t]) self).
Proof.
  intros Hs Hc Hin Ha.
  destruct (move_cases rnd self) as [(e' & He & H)|[(c & Hc' & Hout & _ & H)
    |[(c & t' & rest' & Hc' & Hs' & Hne & _ & H)|[(c & t' & rest' & a & H)
    |(c & t' & rest' & H)]]]].
  - congruence.
  - congruence.
  - congruence.
  - destruct H as (Hc' & _ & _ & _ & Ha' & _). congruence.
  - destruct H as (Hc' & Hs' & _ & _ & _ & ->). congruence.
Qed.

Lemma move_into_tail_witness :
  SnakeGame._snake ring
  = Coordinate.mk 0 0
    :: [Coordinate.mk 1 0; Coordinate.mk 1 1; Coordinate.mk 0 1]
  ∧ (SnakeGame.candidate ring).1 = Returned (Coordinate.mk 0 0)
  ∧ Coordinate.is_outside (Coordinate.mk 0 0) (SnakeGame._width ring)
      (SnakeGame._height ring) = false
  ∧ SnakeGame._apple ring ≠ Some (Coordinate.mk 0 0)
  ∧ SnakeGame.move 0 ring
    = (Returned MoveResult.OK,
       with_snake ([Coordinate.mk 1 0; Coordinate.mk 1 1; Coordinate.mk 0 1]
                   ++ [Coordinate.mk 0 0]) ring).
Proof.
  assert ((SnakeGame.candidate ring).1 = Returned (Coordinate.mk 0 0)) as Hc
    by (vm_compute; reflexivity).
  assert (SnakeGame._apple ring ≠ Some (Coordinate.mk 0 0)) as Ha
    by (simpl; discriminate).
  split; [reflexivity|]. split; [exact Hc|]. split; [reflexivity|].
  split; [exact Ha|].
  apply (move_into_tail 0 ring (Coordinate.mk 0 0)
           [Coordinate.mk 1 0; Coordinate.mk 1 1; Coordinate.mk 0 1]
           eq_refl Hc eq_refl Ha).
Defined.

Lemma ring_reachable :
  ∃ rnd self,
    SnakeGame.__init__ 2 2 2 true rnd = Returned self
    ∧ SnakeGame.run
        [SnakeGame.call_set_direction Direction.DOWN; SnakeGame.call_move 0;
         SnakeGame.call_set_direction Direction.LEFT; SnakeGame.call_move 0;
         SnakeGame.call_set_direction Direction.UP] self
      = ring.
Proof.
  destruct (new_apple_complete
    (SnakeGame.mk 2 2 2 true Direction.RIGHT (first_snake 2) (board 2 2) None)
    (Coordinate.mk 1 1)) as [rnd Hrnd].
  { change (Coordinate.mk 1 1 ∈ board 2 2). apply elem_of_board. cbn. lia. }
  { change (Coordinate.mk 1 1 ∉ first_snake 2).
    rewrite elem_of_first_snake. cbn. lia. }
  exists rnd. unfold SnakeGame.__init__.
  fold (board 2 2) (first_snake 2). rewrite Hrnd. eexists. split; [done|].
  vm_compute. reflexivity.
Qed.

(** ** [SnakeCanvas] *)

Lemma draw_snake_unfold (lib : SnakeCanvas.pygame) (self : SnakeCanvas.t)
    (snake : list Coordinate.t) (screen : list SnakeCanvas.rect_call) :
  (∀ call, lib call = true) →
  SnakeCanvas._draw_snake lib self snake screen =
  (inr (),
   screen ++ ((λ c, SnakeCanvas.mk_call "green" (SnakeCanvas.cell_args self c) 0)
              <$> snake)).
Proof.
  intros Hlib. revert screen. induction snake as [|c snake IH]; intros screen.
  - cbn. by rewrite app_nil_r.
  - cbn. unfold SnakeCanvas.draw_rect. rewrite Hlib, IH.
    by rewrite <- app_assoc.
Qed.

(** X28: when the game has no apple, [draw] raises [AttributeError]
    before it asks pygame for anything, and this is the only way in
    which it raises [AttributeError]; when there is an apple and pygame
    carries out every call, [draw] asks for the apple in red, then for
    one green cell for each cell of the body from the tail to the head,
    then, if asked, for the black outline of thickness 1. *)
Theorem draw_spec (lib : SnakeCanvas.pygame) (self : SnakeCanvas.t)
    (game : SnakeGame.t) (border : bool)
    (screen : list SnakeCanvas.rect_call) :
  (SnakeGame._apple game = None ↔
   (SnakeCanvas.draw lib self game border screen).1
   = inl SnakeCanvas.AttributeError)
  ∧ (SnakeGame._apple game = None →
     (SnakeCanvas.draw lib self game border screen).2 = screen)
  ∧ (∀ a, SnakeGame._apple game = Some a → (∀ call, lib call = true) →
       SnakeCanvas.draw lib self game border screen =
       (inr (),
        screen
        ++ [SnakeCanvas.mk_call "red" (SnakeCanvas.cell_args self a) 0]
        ++ ((λ c, SnakeCanvas.mk_call "green" (SnakeCanvas.cell_args self c) 0)
            <$> SnakeGame._snake game)
        ++ (if border
            then [SnakeCanvas.mk_call "black"
                    (SnakeCanvas.outline_args self game) 1]
            else []))).
Proof.
  assert (∀ snake scr,
    (SnakeCanvas._draw_snake lib self snake scr).1
    ≠ inl SnakeCanvas.AttributeError) as Hsnake.
  { induction snake as [|c snake IH]; intros scr; [done|]. cbn.
    unfold SnakeCanvas.draw_rect. destruct (lib _); [apply IH|done]. }
  unfold SnakeCanvas.draw, SnakeCanvas._draw_apple, SnakeCanvas._draw_coord.
  destruct (SnakeGame._apple game) as [a|]; [|done].
  split; [|split; [done|]].
  - split; [done|]. unfold SnakeCanvas.draw_rect. destruct (lib _); [|done].
    specialize (Hsnake (SnakeGame._snake game)
      (screen ++ [SnakeCanvas.mk_call "red" (SnakeCanvas.cell_args self a) 0])).
    destruct (SnakeCanvas._draw_snake _ _ _ _) as [[e|[]] scr]; cbn in *.
    + intros [= ->]. done.
    + destruct border; [|done]. unfold SnakeCanvas._draw_border,
        SnakeCanvas.draw_rect. by destruct (lib _).
  - intros ? [= <-] Hlib. unfold SnakeCanvas.draw_rect. rewrite Hlib.
    rewrite draw_snake_unfold by done. destruct border; cbn.
    + unfold SnakeCanvas._draw_border, SnakeCanvas.draw_rect. rewrite Hlib.
      by rewrite <- !app_assoc.
    + by rewrite app_nil_r, <- app_assoc.
Qed.

(** X29: in a game built with [width >= 1], [height >= 1] and
    [1 <= start_len <= width], once the body covers the whole board,
    [draw] raises [AttributeError] and draws nothing, whatever pygame
    would do. *)
Theorem draw_full_board_raises
    (width height start_len : Z) (ov : bool) (rnd : nat)
    (calls : list SnakeGame.call) (game : SnakeGame.t)
    (lib : SnakeCanvas.pygame) (self : SnakeCanvas.t) (border : bool)
    (screen : list SnakeCanvas.rect_call) :
  1 ≤ width → 1 ≤ height → 1 ≤ start_len ≤ width →
  SnakeGame.__init__ width height start_len ov rnd = Returned game →
  (∀ c, 0 ≤ Coordinate.x c < width → 0 ≤ Coordinate.y c < height →
        c ∈ SnakeGame._snake (SnakeGame.run calls game)) →
  SnakeCanvas.draw lib self (SnakeGame.run calls game) border screen
  = (inl SnakeCanvas.AttributeError, screen).
Proof.
  intros Hw Hh Hsl Hinit Hfull.
  destruct (well_formed_run width height start_len ov rnd Hw Hh Hsl)
    as (game' & Hinit' & Hwf).
  rewrite Hinit in Hinit'. injection Hinit' as <-.
  destruct (Hwf calls) as (_ & _ & _ & _ & _ & [_ Hap] & _ & Happle).
  unfold SnakeCanvas.draw, SnakeCanvas._draw_apple, SnakeCanvas._draw_coord.
  destruct (SnakeGame._apple (SnakeGame.run calls game)) as [a|]; [|done].
  exfalso. apply (Hap a); [done|]. apply elem_of_board in Happle.
  apply Hfull; tauto.
Qed.

Lemma draw_full_board_raises_witness :
  SnakeGame.__init__ 2 2 2 true 1 = Returned two_by_two
  ∧ (∀ c, 0 ≤ Coordinate.x c < 2 → 0 ≤ Coordinate.y c < 2 →
          c ∈ SnakeGame._snake (SnakeGame.run around two_by_two))
  ∧ SnakeCanvas.draw (λ _, true) (SnakeCanvas.__init__ 30 (0, 0))
      (SnakeGame.run around two_by_two) true []
    = (inl SnakeCanvas.AttributeError, []).
Proof.
  assert (SnakeGame.__init__ 2 2 2 true 1 = Returned two_by_two) as Hinit
    by (vm_compute; reflexivity).
  assert (∀ c, 0 ≤ Coordinate.x c < 2 → 0 ≤ Coordinate.y c < 2 →
               c ∈ SnakeGame._snake (SnakeGame.run around two_by_two))
    as Hfull.
  { assert (SnakeGame._snake (SnakeGame.run around two_by_two)
            = [Coordinate.mk 0 0; Coordinate.mk 1 0; Coordinate.mk 1 1;
               Coordinate.mk 0 1]) as -> by (vm_compute; reflexivity).
    intros [cx cy] Hx Hy. simpl in Hx, Hy.
    assert (cx = 0 ∨ cx = 1) as [-> | ->] by lia;
      assert (cy = 0 ∨ cy = 1) as [-> | ->] by lia;
      rewrite !elem_of_cons; tauto. }
  split; [exact Hinit|]. split; [exact Hfull|].
  apply (draw_full_board_raises 2 2 2 true 1 around two_by_two (λ _, true)
           (SnakeCanvas.__init__ 30 (0, 0)) true []
           ltac:(lia) ltac:(lia) ltac:(lia) Hinit Hfull).
Defined.
